(** * pushgo / simplepush: the bounded listener and the per-connection worker

    A shallow embedding of [simplepush/net.go] (LimitListener, limitConn)
    and [simplepush/worker.go] (Worker and its command handlers, the frame
    classifier), with the properties of the specification stated over it.

    Conventions.
    - Go's fixed-width integers are [Z] with the wrap-around written out
      ([GoInt.wrap]); [int] is taken 64 bits wide.
    - A method with a pointer receiver becomes a function that takes the
      receiver's value and returns the updated one.
    - Calls that leave the modelled code (the wrapped listener, sockets, the
      store, the router, the metrics sink) are recorded in the order the
      code makes them.  Logging is not modelled: log calls are taken to
      have no effect on the state the handlers work with.
    - Every call in the model returns normally, so the deferred [recover]
      of the handlers, which turns a panic into [ErrInvalidParams], is
      never entered and is left out. *)

From Stdlib Require Import ZArith List String Ascii Bool Lia DecimalString.
From Stdlib Require Import Strings.Byte.
Import ListNotations.

Local Open Scope Z_scope.

(** ** Go integers *)

Module GoInt.

(** Two's complement reduction of [z] to [bits] bits. *)
Definition wrap (bits : Z) (z : Z) : Z :=
  (z + 2 ^ (bits - 1)) mod 2 ^ bits - 2 ^ (bits - 1).

Definition int32 (z : Z) : Z := wrap 32 z.
Definition int64 (z : Z) : Z := wrap 64 z.
(** [int] on the 64-bit targets the server is built for. *)
Definition int (z : Z) : Z := wrap 64 z.
Definition uint64 (z : Z) : Z := z mod 2 ^ 64.

Definition MaxInt32 : Z := 2 ^ 31 - 1.
Definition MinInt32 : Z := - 2 ^ 31.
Definition MaxInt64 : Z := 2 ^ 63 - 1.
Definition MinInt64 : Z := - 2 ^ 63.

End GoInt.

(** ** net.go: LimitListener and limitConn *)

Module Net.

(** [type ListenerError struct { Message string; IsTemporary bool }] *)
Record ListenerError : Type := mkListenerError {
  Message : string;
  IsTemporary : bool
}.

Definition ListenerError_Error (err : ListenerError) : string := Message err.
Definition ListenerError_Timeout (err : ListenerError) : bool := false.
Definition ListenerError_Temporary (err : ListenerError) : bool := IsTemporary err.

Definition errTooBusy : ListenerError := mkListenerError "Too many requests"%string true.
Definition errClosed : ListenerError := mkListenerError "Listener closed"%string false.

(** Go's [error] values that cross this file: the two listener errors
    and whatever the wrapped listener or socket reports. *)
Inductive error : Type :=
| ListenerErr (e : ListenerError)
| NetErr (msg : string).

(** The calls [net.go] makes on the objects it wraps, and on its own
    counter, in program order. *)
Inductive Event : Type :=
| EvAccept                                  (* l.Listener.Accept() *)
| EvSetKeepAlive (fd : Z) (on : bool)       (* socket.SetKeepAlive(on) *)
| EvSetKeepAlivePeriod (fd : Z) (d : Z)     (* socket.SetKeepAlivePeriod(d) *)
| EvAddInt32 (delta : Z)                    (* atomic.AddInt32(&l.conns, delta) *)
| EvConnClose (fd : Z)                      (* c.Conn.Close() *)
| EvListenerClose.                          (* l.Listener.Close() *)

Definition Event_eq_dec (a b : Event) : {a = b} + {a <> b}.
Proof. repeat decide equality. Defined.

(** A [net.Conn] as far as this file looks at it: whether it offers the
    [keepAliver] methods (a TCP connection does), its keep-alive
    settings, and whether it is still open. *)
Record Conn : Type := mkConn {
  fd : Z;
  isKeepAliver : bool;
  keepAlive : bool;
  keepAlivePeriod : Z;
  isOpen : bool
}.

Definition Conn_Close (c : Conn) : option error * Conn :=
  ((if isOpen c then None else Some (NetErr "use of closed network connection"%string)),
   mkConn (fd c) (isKeepAliver c) (keepAlive c) (keepAlivePeriod c) false).

Definition Conn_SetKeepAlive (on : bool) (c : Conn) : Conn :=
  mkConn (fd c) (isKeepAliver c) on (keepAlivePeriod c) (isOpen c).

Definition Conn_SetKeepAlivePeriod (d : Z) (c : Conn) : Conn :=
  mkConn (fd c) (isKeepAliver c) (keepAlive c) d (isOpen c).

(** The wrapped [net.Listener]: what its successive [Accept] calls
    deliver, how many calls it has served, and whether it is open. *)
Record Listener : Type := mkListener {
  incoming : nat -> Conn + error;
  served : nat;
  listening : bool
}.

Definition Listener_Accept (ln : Listener) : (Conn + error) * Listener :=
  (incoming ln (served ln), mkListener (incoming ln) (S (served ln)) (listening ln)).

Definition Listener_Close (ln : Listener) : option error * Listener :=
  ((if listening ln then None else Some (NetErr "use of closed network connection"%string)),
   mkListener (incoming ln) (served ln) false).

(** Modelled from the spec: the [Once] type of the [closeOnce] field is
    declared outside src/.  Section 4.1 makes Close idempotent, has every
    Accept after it fail, and collapses repeated Close calls to a single
    underlying close: a latch that runs its function on the first [Do]
    only, and whose [IsDone] tells whether that has happened. *)
Record Once : Type := mkOnce { once_done : bool }.

Definition Once_IsDone (o : Once) : bool := once_done o.

(** [type LimitListener struct] *)
Record LimitListener : Type := mkLimitListener {
  Listener_ : Listener;
  MaxConns : Z;
  KeepAlivePeriod : Z;
  conns : Z;
  closeOnce : Once
}.

(** A computation on the listener: its result, the listener afterwards
    and the calls it made. *)
Definition IO (A : Type) : Type := LimitListener -> A * LimitListener * list Event.

Definition atomic_AddInt32 (delta : Z) : IO unit :=
  fun l =>
    (tt,
     mkLimitListener (Listener_ l) (MaxConns l) (KeepAlivePeriod l)
       (GoInt.int32 (conns l + delta)) (closeOnce l),
     [EvAddInt32 delta]).

(** [func (l *LimitListener) addConn() { atomic.AddInt32(&l.conns, 1) }] *)
Definition addConn : IO unit := atomic_AddInt32 1.
(** [func (l *LimitListener) removeConn() { atomic.AddInt32(&l.conns, -1) }] *)
Definition removeConn : IO unit := atomic_AddInt32 (-1).

(** [func (l *LimitListener) ConnCount() int] *)
Definition ConnCount (l : LimitListener) : Z := GoInt.int (conns l).

(** [func (l *LimitListener) setKeepAlive(c net.Conn)] *)
Definition setKeepAlive (l : LimitListener) (c : Conn) : Conn * list Event :=
  if KeepAlivePeriod l <=? 0 then (c, [])
  else if negb (isKeepAliver c) then (c, [])
  else (Conn_SetKeepAlivePeriod (KeepAlivePeriod l) (Conn_SetKeepAlive true c),
        [EvSetKeepAlive (fd c) true; EvSetKeepAlivePeriod (fd c) (KeepAlivePeriod l)]).

(** [type limitConn struct { net.Conn; removeOnce sync.Once; removeConn func() }];
    [removeOnce] is the latch's done flag. *)
Record limitConn : Type := mkLimitConn {
  Conn_ : Conn;
  removeOnce : bool;
  removeConn_ : IO unit
}.

(** [sync.Once.Do]: run [f] unless the latch is already set, and set it. *)
Definition sync_Once_Do (done : bool) (f : IO unit) : IO bool :=
  fun l =>
    if done then (true, l, [])
    else let '(_, l', t) := f l in (true, l', t).

(** [func (c *limitConn) Close() error] *)
Definition limitConn_Close (c : limitConn) : IO (option error * limitConn) :=
  fun l =>
    let '(err, sock) := Conn_Close (Conn_ c) in
    let '(done, l', t) := sync_Once_Do (removeOnce c) (removeConn_ c) l in
    ((err, mkLimitConn sock done (removeConn_ c)), l',
     EvConnClose (fd (Conn_ c)) :: t).

Definition with_Listener (ln : Listener) (l : LimitListener) : LimitListener :=
  mkLimitListener ln (MaxConns l) (KeepAlivePeriod l) (conns l) (closeOnce l).

(** [func (l *LimitListener) Accept() (conn net.Conn, err error)] *)
Definition Accept : IO (limitConn + error) :=
  fun l =>
    if Once_IsDone (closeOnce l) then (inr (ListenerErr errClosed), l, [])
    else if ConnCount l >=? MaxConns l then (inr (ListenerErr errTooBusy), l, [])
    else
      let '(res, ln) := Listener_Accept (Listener_ l) in
      let l1 := with_Listener ln l in
      match res with
      | inr err => (inr err, l1, [EvAccept])
      | inl socket =>
          let '(socket', t1) := setKeepAlive l1 socket in
          let '(_, l2, t2) := addConn l1 in
          (inl (mkLimitConn socket' false removeConn), l2, EvAccept :: t1 ++ t2)
      end.

(** [Once.Do] of the listener's latch, following the model of [Once]
    above: the first call runs [f], later calls return nil. *)
Definition Once_Do (f : Listener -> option error * Listener) : IO (option error) :=
  fun l =>
    if once_done (closeOnce l) then (None, l, [])
    else
      let '(err, ln) := f (Listener_ l) in
      (err,
       mkLimitListener ln (MaxConns l) (KeepAlivePeriod l) (conns l) (mkOnce true),
       [EvListenerClose]).

(** [func (l *LimitListener) Close() error] *)
Definition Close : IO (option error) := Once_Do Listener_Close.

(** *** Counting the calls on the counter *)

Definition increments (t : list Event) : nat := count_occ Event_eq_dec t (EvAddInt32 1).
Definition decrements (t : list Event) : nat := count_occ Event_eq_dec t (EvAddInt32 (-1)).
Definition underlyingAccepts (t : list Event) : nat := count_occ Event_eq_dec t EvAccept.

(** [Close] called on one connection once per element of [env], in
    order.  After each call the rest of the server (other connections
    being accepted and closed, the listener being closed) may have
    changed the listener in any way: that is the element of [env]. *)
Fixpoint closeMany (env : list (LimitListener -> LimitListener)) (c : limitConn)
  : IO limitConn :=
  fun l =>
    match env with
    | [] => (c, l, [])
    | e :: env' =>
        let '((_, c1), l1, t1) := limitConn_Close c l in
        let '(c2, l2, t2) := closeMany env' c1 (e l1) in
        (c2, l2, t1 ++ t2)
    end.

End Net.

(** ** worker.go: the data the handlers work on *)

Module Worker.

Definition len {A : Type} (l : list A) : Z := Z.of_nat (List.length l).
Definition strlen (s : string) : Z := Z.of_nat (String.length s).

(** Modelled from the spec: the error values ([ErrInvalidCommand] and the
    others) are declared outside src/; these are the error kinds of
    section 7, with one more constructor for the opaque errors of the
    store, the transport and the identifier generator. *)
Inductive error : Type :=
| ErrUnknownCommand
| ErrInvalidCommand
| ErrInvalidParams
| ErrNoParams
| ErrInvalidID
| ErrExistingID
| ErrBadPayload
| ErrTooManyPings
| ErrOpaque (msg : string).

(** *** package time *)

(** An instant, in nanoseconds since the zero [time.Time]; a duration, an
    [int64] count of nanoseconds. *)
Definition time_Time : Type := Z.
Definition time_Duration : Type := Z.

Definition time_IsZero (t : time_Time) : bool := t =? 0.

(** [t.Sub(u)]: the difference, held at the largest or smallest
    [Duration] when it does not fit. *)
Definition time_Sub (t u : time_Time) : time_Duration :=
  if t - u >? GoInt.MaxInt64 then GoInt.MaxInt64
  else if t - u <? GoInt.MinInt64 then GoInt.MinInt64
  else t - u.

(** Seconds between the zero [time.Time] (year 1) and the Unix epoch. *)
Definition unixToInternal : Z := 62135596800.

Definition time_Unix (sec nsec : Z) : time_Time :=
  (sec + unixToInternal) * 1000000000 + nsec.

(** *** Wire data *)

(** A decoded [interface{}] value of [encoding/json]. *)
#[local] Unset Elimination Schemes.
Inductive JSON : Type :=
| JNull
| JBool (b : bool)
| JNumber (n : Z)
| JString (s : string)
| JArray (elems : list JSON)
| JObject (fields : list (string * JSON)).
#[local] Set Elimination Schemes.

Definition JsMap : Type := list (string * JSON).

Fixpoint JsMap_get (m : JsMap) (key : string) : option JSON :=
  match m with
  | [] => None
  | (k, v) :: m' => if String.eqb k key then Some v else JsMap_get m' key
  end.

Inductive WorkerState : Type :=
| WorkerInactive
| WorkerActive.

Record RequestHeader : Type := mkRequestHeader { Type_ : string }.

(** [DeviceID *string] and [ChannelIDs []interface{}] can be nil. *)
Record HelloRequest : Type := mkHelloRequest {
  DeviceID : option string;
  ChannelIDs : option (list JSON);
  PingData : list byte
}.

Record RegisterRequest : Type := mkRegisterRequest { reg_ChannelID : string }.
Record UnregisterRequest : Type := mkUnregisterRequest { unreg_ChannelID : string }.

Record Update : Type := mkUpdate { ChannelID : string; Version : Z }.

Record ACKRequest : Type := mkACKRequest {
  Updates : list Update;
  Expired : list string
}.

(** What the worker hands to the socket: raw bytes ([Socket.Write],
    [websocket.Message.Send]) or one of the reply structs
    ([websocket.JSON.Send]). *)
Inductive Frame : Type :=
| Bytes (b : string)
| RegisterReply (type uaid : string) (status : Z) (channelID endpoint : string)
| UnregisterReply (type : string) (status : Z) (channelID : string)
| FlushReply (type : string) (updates : list Update) (expired : list string)
| PingReply (type : string) (status : Z).

(** The status a frame carries in a field of its own, if it has one. *)
Definition Frame_status (f : Frame) : option Z :=
  match f with
  | RegisterReply _ _ status _ _ => Some status
  | UnregisterReply _ status _ => Some status
  | PingReply _ status => Some status
  | Bytes _ | FlushReply _ _ _ => None
  end.

(** The websocket: the frames handed to it, oldest first, and the error
    its transport answers a write with ([None] while it is healthy). *)
Record WebSocket : Type := mkWebSocket {
  outbox : list Frame;
  transport : option error
}.

Definition WebSocket_Send (f : Frame) (ws : WebSocket) : option error * WebSocket :=
  (transport ws, mkWebSocket (outbox ws ++ [f]) (transport ws)).

(** [PushCommand{Command, Arguments}] as the two handlers build it. *)
Inductive PushCommand : Type :=
| HELLO (worker uaid : string) (chids : list JSON) (connect : list byte)
| REGIS (channelID : string).

Inductive Metric : Type :=
| Increment (name : string)
| Timer (name : string).

(** The [Store] interface of section 6.2 over a store state [T].  Calls
    that change the store return the new state. *)
Class StoreOps (T : Type) : Type := {
  Store_MaxChannels : T -> Z;
  Store_Exists : T -> string -> bool;
  Store_Register : string -> string -> Z -> T -> option error * T;
  Store_Unregister : string -> string -> T -> option error * T;
  Store_Drop : string -> string -> T -> option error * T;
  Store_DropAll : string -> T -> option error * T;
  Store_FetchAll : T -> string -> time_Time -> list Update * list string * option error
}.

(** What the handlers take from outside this file: [encoding/json] on the
    four request structs ([None] for a decoding error), package [id], and
    the router behind [app.Server()]. *)
Record Externals : Type := mkExternals {
  json_Unmarshal_Hello : list byte -> option HelloRequest;
  json_Unmarshal_Register : list byte -> option RegisterRequest;
  json_Unmarshal_Unregister : list byte -> option UnregisterRequest;
  json_Unmarshal_ACK : list byte -> option ACKRequest;
  id_Valid : string -> bool;
  (** the outcome of the n-th call of [id.Generate] *)
  id_Generate : nat -> string * option error;
  (** [HandleCommand(cmd, sock)], given the command and the socket's id *)
  HandleCommand : PushCommand -> string -> Z * JsMap
}.

Section WithStore.

Context {T : Type} `{StoreOps T}.
Variable X : Externals.

(** Modelled from the spec: [Application] is declared outside src/;
    section 6.2 gives it [ClientExists], [Store] and the configuration
    values [clientMinPing], [clientHelloTimeout], [pushLongPongs]. *)
Record Application : Type := mkApplication {
  clientMinPing : time_Duration;
  clientHelloTimeout : time_Duration;
  pushLongPongs : bool;
  ClientExists : string -> bool;
  app_Store : T
}.

(** [type Worker struct]; the logger and the metrics sink are left out,
    calls on the latter are recorded in [St]. *)
Record Worker : Type := mkWorker {
  app : Application;
  id : string;
  state : WorkerState;
  stopped : bool;
  maxChannels : Z;
  lastPing : time_Time;
  pingInt : time_Duration;
  helloTimeout : time_Duration
}.

(** The connection, [*PushWS]: bound device id, socket, store. *)
Record PushWS : Type := mkPushWS {
  Uaid : string;
  Socket : WebSocket;
  Store : T
}.

(** Everything a handler can read or change. *)
Record St : Type := mkSt {
  self : Worker;
  sock : PushWS;
  metrics : list Metric;       (* calls on self.metrics, oldest first *)
  commands : list PushCommand; (* commands given to the router, oldest first *)
  clock : time_Time;           (* what time.Now() returns *)
  generated : nat              (* calls of id.Generate so far *)
}.

Definition Handler : Type := St -> option error * St.

(** [func NewWorker(app *Application, id string) *Worker] *)
Definition NewWorker (a : Application) (rid : string) : Worker :=
  {| app := a;
     id := rid;
     state := WorkerActive;
     stopped := false;
     pingInt := clientMinPing a;
     maxChannels := Store_MaxChannels (app_Store a);
     helloTimeout := clientHelloTimeout a;
     lastPing := 0 |}.

(** Field updates. *)
Definition set_self (w : Worker) (st : St) : St :=
  mkSt w (sock st) (metrics st) (commands st) (clock st) (generated st).
Definition set_sock (s : PushWS) (st : St) : St :=
  mkSt (self st) s (metrics st) (commands st) (clock st) (generated st).
Definition set_state (x : WorkerState) (st : St) : St :=
  let w := self st in
  set_self (mkWorker (app w) (id w) x (stopped w) (maxChannels w)
              (lastPing w) (pingInt w) (helloTimeout w)) st.
Definition set_stopped (x : bool) (st : St) : St :=
  let w := self st in
  set_self (mkWorker (app w) (id w) (state w) x (maxChannels w)
              (lastPing w) (pingInt w) (helloTimeout w)) st.
Definition set_lastPing (x : time_Time) (st : St) : St :=
  let w := self st in
  set_self (mkWorker (app w) (id w) (state w) (stopped w) (maxChannels w)
              x (pingInt w) (helloTimeout w)) st.
Definition set_Uaid (x : string) (st : St) : St :=
  set_sock (mkPushWS x (Socket (sock st)) (Store (sock st))) st.
Definition set_Store (x : T) (st : St) : St :=
  set_sock (mkPushWS (Uaid (sock st)) (Socket (sock st)) x) st.
Definition set_Socket (x : WebSocket) (st : St) : St :=
  set_sock (mkPushWS (Uaid (sock st)) x (Store (sock st))) st.

(** [self.metrics.Increment(name)], [self.metrics.Timer(name, d)] *)
Definition metrics_Increment (name : string) (st : St) : St :=
  mkSt (self st) (sock st) (metrics st ++ [Increment name]) (commands st)
    (clock st) (generated st).
Definition metrics_Timer (name : string) (st : St) : St :=
  mkSt (self st) (sock st) (metrics st ++ [Timer name]) (commands st)
    (clock st) (generated st).

(** A write on [sock.Socket], with the error it returns. *)
Definition Socket_Send (f : Frame) (st : St) : option error * St :=
  let '(err, ws) := WebSocket_Send f (Socket (sock st)) in
  (err, set_Socket ws st).

(** *** The handlers *)

Definition dquote : string := String (ascii_of_nat 34) EmptyString.

(** [strconv]'s decimal rendering, as [%d] prints an [int]. *)
Definition itoa (n : Z) : string := NilZero.string_of_int (Z.to_int n).

(** [fmt.Sprintf(`{"messageType":"%s","status":%d,"uaid":"%s"}`, ...)] *)
Definition sprintf_hello (type : string) (status : Z) (uaid : string) : string :=
  ("{" ++ dquote ++ "messageType" ++ dquote ++ ":" ++ dquote ++ type ++ dquote
   ++ "," ++ dquote ++ "status" ++ dquote ++ ":" ++ itoa status
   ++ "," ++ dquote ++ "uaid" ++ dquote ++ ":" ++ dquote ++ uaid ++ dquote
   ++ "}")%string.

(** The loop [for index, update := range updates] of [Flush]: one
    [updates.sent] per update. *)
Fixpoint countSent (updates : list Update) (st : St) : St :=
  match updates with
  | [] => st
  | _ :: rest => countSent rest (metrics_Increment "updates.sent" st)
  end.

(** [func (self *Worker) Flush(sock *PushWS, lastAccessed int64,
    channel string, version int64) (err error)].  The deferred function
    records the [client.flush] timer on every way out. *)
Definition Flush (lastAccessed : Z) (channel : string) (version : Z) : Handler :=
  fun st =>
    let messageType := "notification"%string in
    let deferred (r : option error * St) : option error * St :=
      (fst r, metrics_Timer "client.flush" (snd r)) in
    deferred
      (if String.eqb (Uaid (sock st)) EmptyString then (None, set_stopped true st)
       else
         let fetched : error + (list Update * option Frame) :=
           if strlen channel =? 0 then
             match Store_FetchAll (Store (sock st)) (Uaid (sock st))
                     (time_Unix lastAccessed 0) with
             | (_, _, Some err) => inl err
             | (updates, expired, None) =>
                 if (len updates >? 0) || (len expired >? 0)
                 then inr (updates, Some (FlushReply messageType updates expired))
                 else inr (updates, None)
             end
           else
             let updates := [mkUpdate channel (GoInt.uint64 version)] in
             inr (updates, Some (FlushReply messageType updates []))
         in
         match fetched with
         | inl err => (Some err, st)
         | inr (_, None) => (None, st)
         | inr (updates, Some reply) =>
             let st1 := if strlen channel >? 0 then countSent updates st else st in
             let '(_, st2) := Socket_Send reply st1 in
             (None, st2)
         end).

(** The code of [Hello] from the label [registerDevice] on. *)
Definition Hello_registerDevice (forceReset : bool) (header : RequestHeader)
    (request : HelloRequest) (chids : list JSON) : Handler :=
  fun st =>
    let st1 :=
      if forceReset then
        let '(uaid, _) := id_Generate X (generated st) in
        set_Uaid uaid
          (mkSt (self st) (sock st) (metrics st) (commands st) (clock st)
             (S (generated st)))
      else st in
    let cmd := HELLO (id (self st1)) (Uaid (sock st1)) chids (PingData request) in
    let '(status, _) := HandleCommand X cmd (Uaid (sock st1)) in
    let st2 := mkSt (self st1) (sock st1) (metrics st1) (commands st1 ++ [cmd])
                 (clock st1) (generated st1) in
    let msg := Bytes (sprintf_hello (Type_ header) status (Uaid (sock st2))) in
    let '(err, st3) := Socket_Send msg st2 in
    let st4 := metrics_Increment "updates.client.hello" st3 in
    let st5 := set_state WorkerActive st4 in
    match err with
    | None => Flush 0 EmptyString 0 st5
    | Some e => (Some e, st5)
    end.

(** The code of [Hello] up to the label [registerDevice]: either the
    error it returns, or the value of [forceReset] and the state with
    which the label is reached. *)
Definition Hello_decide (message : list byte)
  : St -> error + (bool * HelloRequest * list JSON * St) :=
  fun st =>
    match json_Unmarshal_Hello X message with
    | None => inl ErrInvalidParams
    | Some request =>
        match DeviceID request with
        | None => inl ErrInvalidParams
        | Some suggestedUAID =>
            match ChannelIDs request with
            | None => inl ErrNoParams
            | Some chids =>
                if strlen (Uaid (sock st)) >? 0 then
                  if (strlen suggestedUAID =? 0)
                     || String.eqb (Uaid (sock st)) suggestedUAID
                  then inr (false, request, chids, st)
                  else inl ErrExistingID
                else if strlen suggestedUAID =? 0 then
                  inr (true, request, chids, st)
                else if negb (id_Valid X suggestedUAID) then inl ErrInvalidID
                else if ClientExists (app (self st)) suggestedUAID then
                  inr (true, request, chids, st)
                else if len chids >? maxChannels (self st) then
                  let '(_, store) := Store_DropAll suggestedUAID (Store (sock st)) in
                  inr (true, request, chids, set_Store store st)
                else if negb (Store_Exists (Store (sock st)) (Uaid (sock st)))
                        && (len chids >? 0) then
                  inr (true, request, chids, st)
                else
                  inr (false, request, chids, set_Uaid suggestedUAID st)
            end
        end
    end.

(** [func (self *Worker) Hello(sock *PushWS, header *RequestHeader,
    message []byte) (err error)] *)
Definition Hello (header : RequestHeader) (message : list byte) : Handler :=
  fun st =>
    match Hello_decide message st with
    | inl err => (Some err, st)
    | inr (forceReset, request, chids, st') =>
        Hello_registerDevice forceReset header request chids st'
    end.

(** The two [for ... range] loops of [Ack]: drop each channel, stop at
    the first error. *)
Fixpoint dropEach (chids : list string) (st : St) : option error * St :=
  match chids with
  | [] => (None, st)
  | ch :: rest =>
      match Store_Drop (Uaid (sock st)) ch (Store (sock st)) with
      | (Some err, store) => (Some err, set_Store store st)
      | (None, store) => dropEach rest (set_Store store st)
      end
  end.

(** [func (self *Worker) Ack(...)] *)
Definition Ack (header : RequestHeader) (message : list byte) : Handler :=
  fun st =>
    if String.eqb (Uaid (sock st)) EmptyString then (Some ErrInvalidCommand, st)
    else
      match json_Unmarshal_ACK X message with
      | None => (Some ErrInvalidParams, st)
      | Some request =>
          if len (Updates request) =? 0 then (Some ErrNoParams, st)
          else
            let st1 := metrics_Increment "updates.client.ack" st in
            match dropEach (map ChannelID (Updates request)) st1 with
            | (Some err, st2) => (Some err, st2)
            | (None, st2) =>
                match dropEach (Expired request) st2 with
                | (Some err, st3) => (Some err, st3)
                | (None, st3) => Flush 0 EmptyString 0 st3
                end
            end
      end.

(** [endpoint, _ := args["push.endpoint"].(string)] *)
Definition endpointOf (args : JsMap) : string :=
  match JsMap_get args "push.endpoint" with
  | Some (JString s) => s
  | _ => EmptyString
  end.

(** [func (self *Worker) Register(...)] *)
Definition Register (header : RequestHeader) (message : list byte) : Handler :=
  fun st =>
    if String.eqb (Uaid (sock st)) EmptyString then (Some ErrInvalidCommand, st)
    else
      match json_Unmarshal_Register X message with
      | None => (Some ErrInvalidParams, st)
      | Some request =>
          if negb (id_Valid X (reg_ChannelID request)) then (Some ErrInvalidParams, st)
          else
            match Store_Register (Uaid (sock st)) (reg_ChannelID request) 0
                    (Store (sock st)) with
            | (Some err, store) => (Some err, set_Store store st)
            | (None, store) =>
                let st1 := set_Store store st in
                let cmd := REGIS (reg_ChannelID request) in
                let '(status, args) := HandleCommand X cmd (Uaid (sock st1)) in
                let st2 := mkSt (self st1) (sock st1) (metrics st1)
                             (commands st1 ++ [cmd]) (clock st1) (generated st1) in
                let endpoint := endpointOf args in
                let statusCode := 200 in
                let '(_, st3) :=
                  Socket_Send (RegisterReply (Type_ header) (Uaid (sock st2))
                                 statusCode (reg_ChannelID request) endpoint) st2 in
                (None, metrics_Increment "updates.client.register" st3)
            end
      end.

(** [func (self *Worker) Unregister(...)] *)
Definition Unregister (header : RequestHeader) (message : list byte) : Handler :=
  fun st =>
    if String.eqb (Uaid (sock st)) EmptyString then (Some ErrInvalidCommand, st)
    else
      match json_Unmarshal_Unregister X message with
      | None => (Some ErrInvalidParams, st)
      | Some request =>
          if strlen (unreg_ChannelID request) =? 0 then (Some ErrNoParams, st)
          else
            (* Always return success for an UNREG. *)
            let '(_, store) :=
              Store_Unregister (Uaid (sock st)) (unreg_ChannelID request)
                (Store (sock st)) in
            let st1 := set_Store store st in
            let '(_, st2) :=
              Socket_Send (UnregisterReply (Type_ header) 200
                             (unreg_ChannelID request)) st1 in
            (None, metrics_Increment "updates.client.unregister" st2)
      end.

(** [func (self *Worker) Ping(sock *PushWS, header *RequestHeader,
    _ []byte) (err error)] *)
Definition Ping (header : RequestHeader) (message : list byte) : Handler :=
  fun st =>
    let now := clock st in
    if (pingInt (self st) >? 0)
       && negb (time_IsZero (lastPing (self st)))
       && (time_Sub now (lastPing (self st)) <? pingInt (self st))
    then
      let st1 := set_stopped true st in
      (Some ErrTooManyPings, metrics_Increment "updates.client.too_many_pings" st1)
    else
      let st1 := set_lastPing now st in
      let '(_, st2) :=
        if pushLongPongs (app (self st1))
        then Socket_Send (PingReply (Type_ header) 200) st1
        else Socket_Send (Bytes "{}") st1 in
      (None, metrics_Increment "updates.client.ping" st2).

(** [func (self *Worker) Purge(sock *PushWS, _ *RequestHeader,
    _ []byte) (err error)] *)
Definition Purge (header : RequestHeader) (message : list byte) : Handler :=
  fun st =>
    let '(_, st1) := Socket_Send (Bytes "{}") st in
    (None, st1).

End WithStore.

(** *** The frame classifier *)

(** The [for _, b := range raw] loop of [isPingBody] with its two [int]
    counters; [None] when the loop is left by [return false, nil]. *)
Fixpoint countBraces (raw : list byte) (leftBraces rightBraces : Z)
  : option (Z * Z) :=
  match raw with
  | [] => Some (leftBraces, rightBraces)
  | b :: rest =>
      match b with
      | "{"%byte => countBraces rest (GoInt.int (leftBraces + 1)) rightBraces
      | "}"%byte => countBraces rest leftBraces (GoInt.int (rightBraces + 1))
      | x09 | x0d | x0a | " "%byte => countBraces rest leftBraces rightBraces
      | _ => None
      end
  end.

(** [func isPingBody(raw []byte) (bool, error)] *)
Definition isPingBody (raw : list byte) : bool * option error :=
  if (len raw <? 2)
     || ((len raw =? 2)
         && Byte.eqb (nth 0 raw x00) "{"%byte
         && Byte.eqb (nth 1 raw x00) "}"%byte)
  then (true, None)
  else
    match countBraces raw 0 0 with
    | None => (false, None)
    | Some (leftBraces, rightBraces) =>
        if (leftBraces <=? 1) && (leftBraces =? rightBraces)
        then (true, None)
        else (false, Some ErrBadPayload)
    end.

End Worker.

(** ** The classifier as section 4.2 words it *)

Module ClassifierSpec.

Import Worker.

(** The bytes step 2 permits: the braces, tab, CR, LF and space. *)
Definition permitted (b : byte) : bool :=
  Byte.eqb b "{"%byte || Byte.eqb b "}"%byte
  || Byte.eqb b x09 || Byte.eqb b x0d || Byte.eqb b x0a || Byte.eqb b " "%byte.

(** How often [x] occurs in [raw]. *)
Fixpoint countByte (x : byte) (raw : list byte) : Z :=
  match raw with
  | [] => 0
  | b :: rest => (if Byte.eqb b x then 1 else 0) + countByte x rest
  end.

Definition isEmptyObject (raw : list byte) : bool :=
  match raw with
  | [a; b] => Byte.eqb a "{"%byte && Byte.eqb b "}"%byte
  | _ => false
  end.

(** Steps 1 to 3, in that order. *)
Definition classify (raw : list byte) : bool * option error :=
  if (len raw <? 2) || isEmptyObject raw then (true, None)
  else if negb (forallb permitted raw) then (false, None)
  else if (countByte "{"%byte raw <=? 1)
          && (countByte "{"%byte raw =? countByte "}"%byte raw)
  then (true, None)
  else (false, Some ErrBadPayload).

End ClassifierSpec.

(** ** The ping rate limit as section 4.7 words it *)

Module PingSpec.

Import Worker.



End PingSpec.

(** ** Concrete listeners, stores and collaborators

    Small instances on which the model is run. *)

Module Examples.

Import Net Worker.

Definition tcpConn : Conn := mkConn 7 true false 0 true.

(** A listener with room for two connections, none open, whose wrapped
    listener always has a TCP connection ready. *)
Definition idleListener : LimitListener :=
  mkLimitListener (mkListener (fun _ => inl tcpConn) 0 true) 2 30000000000 0
    (mkOnce false).

(** What [Accept] makes of it: the connection with keep-alive set, the
    listener with one connection counted, and the calls made. *)
Definition acceptedConn : limitConn :=
  mkLimitConn (mkConn 7 true true 30000000000 true) false removeConn.

Definition oneOpenListener : LimitListener :=
  mkLimitListener (mkListener (fun _ => inl tcpConn) 1 true) 2 30000000000 1
    (mkOnce false).

Definition acceptCalls : list Event :=
  [EvAccept; EvSetKeepAlive 7 true; EvSetKeepAlivePeriod 7 30000000000; EvAddInt32 1].

(** Two connections open out of two: full. *)
Definition fullListener : LimitListener :=
  mkLimitListener (mkListener (fun _ => inl tcpConn) 2 true) 2 30000000000 2
    (mkOnce false).

(** The full listener after [Close]. *)
Definition fullClosedListener : LimitListener := snd (fst (Net.Close fullListener)).

(** An in-memory store: the registered (device, channel, version)
    records.  [Unregister] and [Drop] report an error for a record that
    is not there. *)
Definition MemStore : Type := list (string * string * Z).

Definition ofDevice (uaid : string) (r : string * string * Z) : bool :=
  String.eqb (fst (fst r)) uaid.

Definition isRecord (uaid chid : string) (r : string * string * Z) : bool :=
  String.eqb (fst (fst r)) uaid && String.eqb (snd (fst r)) chid.

Definition removeRecord (uaid chid : string) (s : MemStore)
  : option Worker.error * MemStore :=
  if existsb (isRecord uaid chid) s
  then (None, filter (fun r => negb (isRecord uaid chid r)) s)
  else (Some (ErrOpaque "no such channel"), s).

#[export] Instance MemStoreOps : StoreOps MemStore := {
  Store_MaxChannels := fun _ => 200;
  Store_Exists := fun s uaid => existsb (ofDevice uaid) s;
  Store_Register := fun uaid chid v s => (None, (uaid, chid, v) :: s);
  Store_Unregister := removeRecord;
  Store_Drop := removeRecord;
  Store_DropAll := fun uaid s => (None, filter (fun r => negb (ofDevice uaid r)) s);
  Store_FetchAll := fun s uaid since =>
    (map (fun r => mkUpdate (snd (fst r)) (snd r))
       (filter (fun r => ofDevice uaid r && (0 <? snd r)) s), [], None)
}.

Definition isHexDigit (c : ascii) : bool :=
  let n := nat_of_ascii c in
  ((48 <=? n) && (n <=? 57) || (97 <=? n) && (n <=? 102))%nat.

Fixpoint allHex (s : string) : bool :=
  match s with
  | EmptyString => true
  | String c rest => isHexDigit c && allHex rest
  end.

(** Stand-ins for the collaborators: every frame decodes to the given
    request, identifiers are non-empty lower-case hex strings, the
    generator answers [gen], and the router answers 200 with an
    endpoint. *)
Definition externals (hello : HelloRequest) (chid : string)
    (gen : string * option Worker.error) : Externals :=
  {| json_Unmarshal_Hello := fun _ => Some hello;
     json_Unmarshal_Register := fun _ => Some (mkRegisterRequest chid);
     json_Unmarshal_Unregister := fun _ => Some (mkUnregisterRequest chid);
     json_Unmarshal_ACK := fun _ => Some (mkACKRequest [mkUpdate chid 1] []);
     id_Valid := fun s => negb (String.eqb s EmptyString) && allHex s;
     id_Generate := fun _ => gen;
     HandleCommand := fun _ _ => (200, [("push.endpoint"%string, JString "https://push.example/update/1")]) |}.

Definition deviceA : string := "0a1b2c3d4e5f60718293a4b5c6d7e8f9".
Definition deviceB : string := "ffeeddccbbaa99887766554433221100".

(** A returning device's handshake: its id and one channel. *)
Definition helloA : HelloRequest :=
  mkHelloRequest (Some deviceA) (Some [JString "c1"]) [].

Definition demoApp (longPongs : bool) (store : MemStore) : Application :=
  mkApplication 1000000000 30000000000 longPongs (fun _ => false) store.

(** A state around a worker fresh from [NewWorker], on a socket bound to
    [uaid] (empty before the handshake), at clock reading [now]. *)
Definition demoSt (longPongs : bool) (store : MemStore) (uaid : string)
    (now : time_Time) : St :=
  mkSt (NewWorker (demoApp longPongs store) "rid-1")
    (mkPushWS uaid (mkWebSocket [] None) store) [] [] now 0.

(** A store in which device A is registered with channel c1. *)
Definition storeA : MemStore := [(deviceA, "c1"%string, 0)].

(** The collaborators when the generator works, and when it fails with
    an empty id. *)
Definition X1 : Externals := externals helloA "c1" (deviceB, None).
Definition X2 : Externals :=
  externals helloA "c1" (EmptyString, Some (ErrOpaque "rand: short read")).

(** Before the handshake, device A and its channel being in the store. *)
Definition unboundSt : St := demoSt false storeA EmptyString 5000.

(** Bound to device A, on an empty store. *)
Definition boundEmptySt : St := demoSt false [] deviceA 5000.

(** Long pongs configured, no ping seen yet; and the same right after a
    first ping. *)
Definition longPongSt : St := demoSt true storeA deviceA 5000.

End Examples.

(** ** net.go: addresses, URLs and Retry-After *)

Module NetUtil.

Import Worker.

(** [strings.IndexByte(s, c)]: the index of the first [c] in [s], or -1. *)
Fixpoint indexByteFrom (s : string) (c : ascii) (i : Z) : Z :=
  match s with
  | EmptyString => -1
  | String a rest => if Ascii.eqb a c then i else indexByteFrom rest c (i + 1)
  end.

Definition strings_IndexByte (s : string) (c : ascii) : Z := indexByteFrom s c 0.

(** [strings.Replace(s, old, new, -1)] for a one-byte [old]. *)
Fixpoint strings_ReplaceByte (s : string) (old : ascii) (new : string) : string :=
  match s with
  | EmptyString => EmptyString
  | String a rest =>
      if Ascii.eqb a old
      then (new ++ strings_ReplaceByte rest old new)%string
      else String a (strings_ReplaceByte rest old new)
  end.

(** [var defaultPorts = map[string]string{...}]; a scheme that is not a
    key reads as the empty string. *)
Definition defaultPorts (scheme : string) : string :=
  if String.eqb scheme "https" then "443"%string
  else if String.eqb scheme "wss" then "443"%string
  else if String.eqb scheme "http" then "80"%string
  else if String.eqb scheme "ws" then "80"%string
  else EmptyString.

(** The byte [c] occurs in [s]. *)
Definition occurs (c : ascii) (s : string) : Prop := In c (list_ascii_of_string s).

(** The host as [CanonicalURL] writes it: the first two [if]s. *)
Definition canonicalHost (host : string) : string :=
  let hasZone := strings_IndexByte host "%"%char >=? 0 in
  let host1 := if hasZone then strings_ReplaceByte host "%"%char "%25" else host in
  if hasZone || (strings_IndexByte host1 ":"%char >=? 0)
  then ("[" ++ host1 ++ "]")%string
  else host1.

(** [func CanonicalURL(scheme, host, port string) string] *)
Definition CanonicalURL (scheme host port : string) : string :=
  let host2 := canonicalHost host in
  if (strlen port =? 0) || String.eqb (defaultPorts scheme) port
  then (scheme ++ "://" ++ host2)%string
  else (scheme ++ "://" ++ host2 ++ ":" ++ port)%string.

(** [func HostPort(ln net.Listener, dh Hostnamer) (host, port string)].
    [ln] is [None] for a nil listener and holds what [ln.Addr()] gives, as
    a string, [None] again for a nil address; [dh] is [None] for a nil
    [Hostnamer] and holds what [dh.Hostname()] gives.  [splitHostPort]
    stands for [net.SplitHostPort]. *)
Definition HostPort (splitHostPort : string -> option (string * string))
    (ln : option (option string)) (dh : option string) : string * string :=
  let defaultHost := match dh with Some h => h | None => EmptyString end in
  let addr := match ln with Some a => a | None => None end in
  match addr with
  | None => (defaultHost, EmptyString)
  | Some a =>
      match splitHostPort a with
      | None => (defaultHost, EmptyString)
      | Some (host, port) =>
          ((if strlen defaultHost >? 0 then defaultHost else host), port)
      end
  end.

Definition time_Second : time_Duration := 1000000000.

(** [func ParseRetryAfter(header string) (d time.Duration, ok bool)].
    [parseInt] stands for [strconv.ParseInt(header, 10, 64)], [parseTime]
    for [http.ParseTime], [now] for what [timeNow()] returns; the product
    is an [int64] product. *)
Definition ParseRetryAfter (parseInt : string -> option Z)
    (parseTime : string -> option time_Time) (now : time_Time)
    (header : string) : time_Duration * bool :=
  if strlen header =? 0 then (0, false)
  else
    let parsed : option time_Duration :=
      match parseInt header with
      | None =>
          match parseTime header with
          | None => None
          | Some t => Some (time_Sub t now)
          end
      | Some sec => Some (GoInt.int64 (sec * time_Second))
      end in
    match parsed with
    | None => (0, false)
    | Some d => if d >? 0 then (d, true) else (0, false)
    end.

End NetUtil.

(** ** The listener in use *)

Module Serving.

Import Net.

(** [func Listen(addr string, maxConns int, keepAlivePeriod time.Duration)];
    [netListen] is what [net.Listen("tcp", addr)] returned. *)
Definition Listen (netListen : Listener + error) (maxConns : Z)
    (keepAlivePeriod : Z) : LimitListener + error :=
  match netListen with
  | inr err => inr err
  | inl ln => inl (mkLimitListener ln maxConns keepAlivePeriod 0 (mkOnce false))
  end.

(** A server around one listener: the listener and the connections
    [Accept] has handed out so far, oldest first, each with the state of
    its latch. *)
Record Server : Type := mkServer {
  listener : LimitListener;
  handed : list limitConn
}.

(** What the rest of the program does with them: accept, close the i-th
    connection handed out (again, if it likes), close the listener. *)
Inductive Call : Type :=
| CallAccept
| CallConnClose (i : nat)
| CallClose.

Fixpoint replaceNth {A : Type} (i : nat) (x : A) (l : list A) : list A :=
  match l, i with
  | [], _ => []
  | _ :: rest, O => x :: rest
  | a :: rest, S j => a :: replaceNth j x rest
  end.

Definition call (k : Call) (s : Server) : Server :=
  match k with
  | CallAccept =>
      match Accept (listener s) with
      | (inl c, l, _) => mkServer l (handed s ++ [c])
      | (inr _, l, _) => mkServer l (handed s)
      end
  | CallConnClose i =>
      match nth_error (handed s) i with
      | None => s
      | Some c =>
          let '((_, c'), l, _) := limitConn_Close c (listener s) in
          mkServer l (replaceNth i c' (handed s))
      end
  | CallClose =>
      let '(_, l, _) := Net.Close (listener s) in
      mkServer l (handed s)
  end.

Definition run (ks : list Call) (s : Server) : Server :=
  fold_left (fun s k => call k s) ks s.

(** The connections handed out on which [Close] has not been called. *)
Definition live (cs : list limitConn) : nat :=
  List.length (filter (fun c => negb (removeOnce c)) cs).

(** What every call keeps. *)
Definition balanced (maxConns : Z) (s : Server) : Prop :=
  MaxConns (listener s) = maxConns
  /\ Forall (fun c => removeConn_ c = removeConn) (handed s)
  /\ conns (listener s) = Z.of_nat (live (handed s))
  /\ Z.of_nat (live (handed s)) <= Z.max 0 maxConns.

End Serving.

(** ** worker.go: the receive loop *)

Module Sniffing.

Import Worker.

(** What [json.Unmarshal(raw, header)] can answer: the header, or one of
    the error kinds the loop tells apart. *)
Inductive HeaderDecode : Type :=
| HeaderOk (header : RequestHeader)
| HeaderTypeError                      (* *json.UnmarshalTypeError *)
| HeaderSyntaxError (offset : Z)       (* *json.SyntaxError *)
| HeaderOtherError.

(** What the loop and [handleError] take from outside this file.
    [json_Unmarshal_Map] is [json.Unmarshal(message, &reply)] on a
    [map[string]interface{}]: an error, or the map it leaves in [reply],
    [None] when that is the nil map.  [json_Marshal_Map] is the encoding
    [websocket.JSON.Send] puts on the wire.  Modelled from the spec:
    [ErrToStatus] is declared outside src/; section 4.8 has it give the
    numeric status and the error text of an error. *)
Record Codec : Type := mkCodec {
  json_Unmarshal_Header : list byte -> HeaderDecode;
  json_Unmarshal_Map : list byte -> option JsMap + error;
  json_Marshal_Map : JsMap -> string;
  strings_ToLower : string -> string;
  ErrToStatus : error -> Z * string
}.

(** [reply[key] = v] on a Go map. *)
Definition JsMap_set (m : JsMap) (key : string) (v : JSON) : JsMap :=
  (key, v) :: filter (fun kv => negb (String.eqb (fst kv) key)) m.

(** A call that returns, or one that panics. *)
Inductive Outcome (A : Type) : Type :=
| Done (a : A)
| Panic.

Arguments Done {A} a.
Arguments Panic {A}.

(** The loop after a frame: it goes on with a state, or a panic leaves it
    (and [sniffer]) with the state reached. *)
Inductive Exit (S : Type) : Type :=
| Running (st : S)
| Panicked (st : S).

Arguments Running {S} st.
Arguments Panicked {S} st.

Definition Exit_state {S : Type} (e : Exit S) : S :=
  match e with
  | Running st => st
  | Panicked st => st
  end.

Section WithStore.

Context {T : Type} `{StoreOps T}.
Variable X : Externals.
Variable C : Codec.

(** The envelope [handleError] builds from the decoded message. *)
Definition envelope (reply : JsMap) (err : error) : JsMap :=
  let '(status, text) := ErrToStatus C err in
  JsMap_set (JsMap_set reply "status" (JNumber status)) "error" (JString text).

(** [func (self *Worker) handleError(sock *PushWS, message []byte,
    err error) (ret error)].  Writing to the nil map panics. *)
Definition handleError (message : list byte) (err : error)
  : @St T -> Outcome (option error * @St T) :=
  fun st =>
    match json_Unmarshal_Map C message with
    | inr ret => Done (Some ret, st)
    | inl None => Panic
    | inl (Some reply) =>
        Done (Socket_Send (Bytes (json_Marshal_Map C (envelope reply err))) st)
    end.

(** The [switch strings.ToLower(header.Type)] of [sniffer]. *)
Definition dispatch (header : RequestHeader) (raw : list byte) : @Handler T :=
  let cmd := strings_ToLower C (Type_ header) in
  if String.eqb cmd "ping" then Ping header raw
  else if String.eqb cmd "hello" then Hello X header raw
  else if String.eqb cmd "ack" then Ack X header raw
  else if String.eqb cmd "register" then Register X header raw
  else if String.eqb cmd "unregister" then Unregister X header raw
  else if String.eqb cmd "purge" then Purge header raw
  else fun st => (Some ErrUnknownCommand, st).

(** [handleError] followed by [self.stopped = true]. *)
Definition failWith (raw : list byte) (err : error) (st : @St T) : Exit (@St T) :=
  match handleError raw err st with
  | Panic => Panicked st
  | Done (_, st1) => Running (set_stopped true st1)
  end.

(** The end of the loop body: [if err != nil { ... }]. *)
Definition afterHandler (raw : list byte) (r : option error * @St T) : Exit (@St T) :=
  match r with
  | (None, st1) => Running st1
  | (Some err, st1) => failWith raw err st1
  end.

(** The loop body from [websocket.Message.Receive] on; [received] is the
    frame it read or the error it returned. *)
Definition sniffer_frame (received : list byte + error) (st : @St T) : Exit (@St T) :=
  match received with
  | inr _ => Running (set_stopped true st)
  | inl raw =>
      if len raw <=? 0 then Running st
      else
        match isPingBody raw with
        | (_, Some _) => Running (set_stopped true st)
        | (true, None) => afterHandler raw (dispatch (mkRequestHeader "ping") raw st)
        | (false, None) =>
            match json_Unmarshal_Header C raw with
            | HeaderOk header => afterHandler raw (dispatch header raw st)
            | HeaderTypeError => failWith raw ErrUnknownCommand st
            | HeaderSyntaxError _ | HeaderOtherError => Running (set_stopped true st)
            end
        end
  end.

(** [func (self *Worker) sniffer(sock *PushWS)] on the frames and errors
    that [Receive] will deliver, in order.  The result is what was not
    read and how the loop stands: with [stopped] set it has returned, with
    the input used up it waits in [Receive]. *)
Fixpoint sniffer (input : list (list byte + error)) (st : @St T)
  : list (list byte + error) * Exit (@St T) :=
  if stopped (self st) then (input, Running st)
  else
    match input with
    | [] => ([], Running st)
    | received :: rest =>
        match sniffer_frame received st with
        | Running st1 => sniffer rest st1
        | Panicked st1 => (rest, Panicked st1)
        end
    end.

End WithStore.

End Sniffing.

(** ** What the handlers leave alone *)

Module HandlerSpec.

Import Worker.

(** [st'] comes after [st] on the same connection: a set [stopped] flag
    is still set, a bound device id is still the same, and the worker's
    configuration, the transport and the clock are as they were. *)
Definition steady {T : Type} (st st' : @St T) : Prop :=
  (stopped (self st) = true -> stopped (self st') = true)
  /\ (Uaid (sock st) <> EmptyString -> Uaid (sock st') = Uaid (sock st))
  /\ app (self st') = app (self st)
  /\ id (self st') = id (self st)
  /\ maxChannels (self st') = maxChannels (self st)
  /\ pingInt (self st') = pingInt (self st)
  /\ helloTimeout (self st') = helloTimeout (self st)
  /\ transport (Socket (sock st')) = transport (Socket (sock st))
  /\ clock st' = clock st.

(** The clock moves on to [now]. *)
Definition at_clock {T : Type} (now : time_Time) (st : @St T) : @St T :=
  mkSt (self st) (sock st) (metrics st) (commands st) now (generated st).

End HandlerSpec.

(** ** More concrete instances *)

Module MoreExamples.

Import Net Worker Sniffing Serving Examples.

(** A wrapped listener whose next accept fails. *)
Definition failingListener : LimitListener :=
  mkLimitListener (mkListener (fun _ => inr (NetErr "accept: too many open files")) 0 true)
    2 30000000000 0 (mkOnce false).

(** A run of a server: two accepts, the first connection closed twice,
    an accept, the listener closed, one more accept. *)
Definition busyDay : list Call :=
  [CallAccept; CallAccept; CallConnClose 0; CallConnClose 0; CallAccept;
   CallClose; CallAccept].

Definition lowerChar (c : ascii) : ascii :=
  let n := nat_of_ascii c in
  if ((65 <=? n) && (n <=? 90))%nat then ascii_of_nat (n + 32) else c.

Fixpoint lowerASCII (s : string) : string :=
  match s with
  | EmptyString => EmptyString
  | String c rest => String (lowerChar c) (lowerASCII rest)
  end.

(** Stand-ins for the loop's collaborators: every frame decodes to the
    given header and the given map, a map is written as the list of its
    keys, lower-casing is that of ASCII, and the statuses are those of an
    HTTP-like table. *)
Definition codec (header : HeaderDecode) (object : option JsMap + Worker.error) : Codec :=
  {| json_Unmarshal_Header := fun _ => header;
     json_Unmarshal_Map := fun _ => object;
     json_Marshal_Map := fun m => String.concat "," (map fst m);
     strings_ToLower := lowerASCII;
     ErrToStatus := fun e =>
       match e with
       | ErrInvalidCommand => (401, "Invalid Command"%string)
       | ErrUnknownCommand => (401, "Unknown Command"%string)
       | ErrTooManyPings => (401, "Client sent too many pings"%string)
       | _ => (500, "An unexpected error occurred"%string)
       end |}.

(** A frame that is neither a ping nor a bad payload. *)
Definition commandFrame : list byte := ["{"%byte; "x"%byte; "}"%byte].

(** The object a client sent with a [register] before its handshake. *)
Definition earlyRegister : JsMap :=
  [("messageType"%string, JString "register"); ("channelID"%string, JString "ch1")].

Definition registerCodec : Codec :=
  codec (HeaderOk (mkRequestHeader "Register")) (inl (Some earlyRegister)).

Definition unknownCodec : Codec :=
  codec (HeaderOk (mkRequestHeader "subscribe")) (inl (Some earlyRegister)).

(** A frame that reads [null]: no header field, the nil map. *)
Definition nullCodec : Codec :=
  codec (HeaderOk (mkRequestHeader EmptyString)) (inl None).

(** Bound to device A, device A and its channel being in the store. *)
Definition boundSt : St := demoSt false storeA deviceA 5000.

(** A second handshake with the same id, one with another id, an
    anonymous one and one with no channels. *)
Definition helloB : HelloRequest := mkHelloRequest (Some deviceB) (Some []) [].
Definition helloAnonymous : HelloRequest :=
  mkHelloRequest (Some EmptyString) (Some []) [].
Definition helloBare : HelloRequest := mkHelloRequest (Some deviceA) (Some []) [].

Definition hello : RequestHeader := mkRequestHeader "hello".

Definition XB : Externals := externals helloB "c1" (deviceB, None).
Definition XAnonymous : Externals := externals helloAnonymous "c1" (deviceB, None).
Definition XBare : Externals := externals helloBare "c1" (deviceB, None).

End MoreExamples.

(** * Properties *)

Module GoIntFacts.

Import GoInt.

Lemma wrap_small (bits z : Z) :
  0 < bits -> - 2 ^ (bits - 1) <= z < 2 ^ (bits - 1) -> wrap bits z = z.
Proof.
  intros Hb Hz. unfold wrap.
  assert (E : 2 ^ bits = 2 * 2 ^ (bits - 1)).
  { replace bits with (Z.succ (bits - 1)) at 1 by lia.
    rewrite Z.pow_succ_r by lia. reflexivity. }
  rewrite Z.mod_small by lia. lia.
Qed.

Lemma int_small (z : Z) : MinInt64 <= z <= MaxInt64 -> int z = z.
Proof.
  unfold MinInt64, MaxInt64, int. intros H.
  apply wrap_small; [lia | simpl in *; lia].
Qed.

(** Adding one and taking one away again is the identity on [int32],
    also across the wrap. *)
Lemma int32_inc_dec (z : Z) :
  MinInt32 <= z <= MaxInt32 -> int32 (int32 (z + 1) + -1) = z.
Proof.
  intros H. unfold int32, wrap.
  replace ((z + 1 + 2 ^ (32 - 1)) mod 2 ^ 32 - 2 ^ (32 - 1) + -1 + 2 ^ (32 - 1))
    with ((z + 1 + 2 ^ (32 - 1)) mod 2 ^ 32 - 1) by lia.
  rewrite Zminus_mod_idemp_l.
  replace (z + 1 + 2 ^ (32 - 1) - 1) with (z + 2 ^ (32 - 1)) by lia.
  unfold MinInt32, MaxInt32 in H.
  rewrite Z.mod_small by (simpl in *; lia). lia.
Qed.

End GoIntFacts.

(** ** The listener *)

Module NetFacts.

Import Net.

(** *** Single calls *)

Lemma Accept_when_closed (l : LimitListener) :
  Once_IsDone (closeOnce l) = true ->
  Accept l = (inr (ListenerErr errClosed), l, []).
Proof. intros Hd. unfold Accept. rewrite Hd. reflexivity. Qed.

Lemma Accept_when_busy (l : LimitListener) :
  Once_IsDone (closeOnce l) = false ->
  ConnCount l >= MaxConns l ->
  Accept l = (inr (ListenerErr errTooBusy), l, []).
Proof.
  intros Hd Hc. unfold Accept. rewrite Hd.
  destruct (Z.geb_spec (ConnCount l) (MaxConns l)); [reflexivity | lia].
Qed.

(** After [Close] the latch is set, whatever the wrapped listener's own
    [Close] returned. *)
Lemma Close_sets_latch (l : LimitListener) :
  Once_IsDone (closeOnce (snd (fst (Close l)))) = true.
Proof.
  unfold Close, Once_Do, Once_IsDone.
  destruct (once_done (closeOnce l)) eqn:E; simpl; [exact E | reflexivity].
Qed.

Lemma setKeepAlive_counts (l : LimitListener) (c : Conn) :
  increments (snd (setKeepAlive l c)) = 0%nat
  /\ decrements (snd (setKeepAlive l c)) = 0%nat.
Proof.
  unfold setKeepAlive.
  destruct (KeepAlivePeriod l <=? 0); [split; reflexivity |].
  destruct (negb (isKeepAliver c)); split; reflexivity.
Qed.

(** A successful [Accept]: one call of the wrapped listener, one
    [addConn], and a connection whose latch is open and whose
    [removeConn] is the listener's. *)
Lemma Accept_success (l l1 : LimitListener) (c : limitConn) (t : list Event) :
  Accept l = (inl c, l1, t) ->
  removeOnce c = false /\ removeConn_ c = removeConn
  /\ conns l1 = GoInt.int32 (conns l + 1)
  /\ increments t = 1%nat /\ decrements t = 0%nat.
Proof.
  unfold Accept.
  destruct (Once_IsDone (closeOnce l)); [discriminate |].
  destruct (ConnCount l >=? MaxConns l); [discriminate |].
  destruct (Listener_Accept (Listener_ l)) as [res ln].
  destruct res as [socket | err]; [| discriminate].
  pose proof (setKeepAlive_counts (with_Listener ln l) socket) as [Hi Hd].
  destruct (setKeepAlive (with_Listener ln l) socket) as [socket' t1].
  simpl in Hi, Hd. simpl. intros E. inversion E; subst; clear E.
  repeat split.
  - unfold increments in *. simpl. rewrite count_occ_app, Hi. reflexivity.
  - unfold decrements in *. simpl. rewrite count_occ_app, Hd. reflexivity.
Qed.

(** The first [Close] of a connection runs its [removeConn]. *)
Lemma limitConn_Close_first (c : limitConn) (l : LimitListener) :
  removeOnce c = false -> removeConn_ c = removeConn ->
  exists err sock,
    limitConn_Close c l
    = ((err, mkLimitConn sock true removeConn),
       snd (fst (removeConn l)),
       [EvConnClose (fd (Conn_ c)); EvAddInt32 (-1)]).
Proof.
  intros Ho Hr. unfold limitConn_Close, sync_Once_Do.
  rewrite Ho, Hr. simpl. eauto.
Qed.

(** Every later [Close] leaves the listener alone. *)
Lemma limitConn_Close_again (c : limitConn) (l : LimitListener) :
  removeOnce c = true ->
  exists err sock,
    limitConn_Close c l
    = ((err, mkLimitConn sock true (removeConn_ c)), l, [EvConnClose (fd (Conn_ c))]).
Proof.
  intros Ho. unfold limitConn_Close, sync_Once_Do.
  rewrite Ho. simpl. eauto.
Qed.

Lemma closeMany_after_first (env : list (LimitListener -> LimitListener)) :
  forall (c : limitConn) (l : LimitListener),
    removeOnce c = true ->
    increments (snd (closeMany env c l)) = 0%nat
    /\ decrements (snd (closeMany env c l)) = 0%nat.
Proof.
  induction env as [| e env IH]; intros c l Ho; simpl.
  - split; reflexivity.
  - destruct (limitConn_Close_again c l Ho) as (err & sock & E).
    rewrite E.
    specialize (IH (mkLimitConn sock true (removeConn_ c)) (e l) eq_refl).
    destruct (closeMany env (mkLimitConn sock true (removeConn_ c)) (e l))
      as [[c2 l2] t2].
    simpl in *. unfold increments, decrements in *. simpl. exact IH.
Qed.

(** Without interference, closes after the first keep the counter. *)
Lemma closeMany_quiet_after_first (n : nat) :
  forall (c : limitConn) (l : LimitListener),
    removeOnce c = true ->
    snd (fst (closeMany (repeat (fun x => x) n) c l)) = l.
Proof.
  induction n as [| n IH]; intros c l Ho; simpl.
  - reflexivity.
  - destruct (limitConn_Close_again c l Ho) as (err & sock & E).
    rewrite E.
    specialize (IH (mkLimitConn sock true (removeConn_ c)) l eq_refl).
    destruct (closeMany (repeat (fun x => x) n)
                (mkLimitConn sock true (removeConn_ c)) l) as [[c2 l2] t2].
    simpl in *. exact IH.
Qed.

(** *** The counter over a connection's life *)

(** C4. For a connection that [Accept] returns, the active count is
    incremented exactly once, at accept time.  However often [Close] is
    then called on that connection (at least once), and whatever happens
    to the listener between the calls, the count is decremented exactly
    once: per connection, as many increments as decrements.  When nothing
    else touches the listener, the count after the closes is the count
    after the accept with one taken away, which is the count from before
    the accept. *)
Theorem LimitListener_count_balanced
    (l l1 : LimitListener) (c : limitConn) (t : list Event) :
  Accept l = (inl c, l1, t) ->
  (increments t = 1%nat /\ decrements t = 0%nat
   /\ conns l1 = GoInt.int32 (conns l + 1))
  /\ (forall env c2 l2 t2,
        env <> [] ->
        closeMany env c l1 = (c2, l2, t2) ->
        decrements t2 = 1%nat /\ increments t2 = 0%nat
        /\ increments (t ++ t2) = decrements (t ++ t2))
  /\ (forall n,
        (0 < n)%nat ->
        conns (snd (fst (closeMany (repeat (fun x => x) n) c l1)))
        = GoInt.int32 (conns l1 + -1)
        /\ (GoInt.MinInt32 <= conns l <= GoInt.MaxInt32 ->
            conns (snd (fst (closeMany (repeat (fun x => x) n) c l1))) = conns l)).
Proof.
  intros HA.
  destruct (Accept_success l l1 c t HA) as (Ho & Hr & Hc & Hi & Hd).
  split; [auto |]. split.
  - intros env c2 l2 t2 Hne E.
    destruct env as [| e env]; [congruence |]. simpl in E.
    destruct (limitConn_Close_first c l1 Ho Hr) as (err & sock & E1).
    rewrite E1 in E.
    pose proof (closeMany_after_first env (mkLimitConn sock true removeConn)
                  (e (snd (fst (removeConn l1)))) eq_refl) as [Hi2 Hd2].
    destruct (closeMany env (mkLimitConn sock true removeConn)
                (e (snd (fst (removeConn l1))))) as [[c3 l3] t3].
    inversion E; subst; clear E. simpl in Hi2, Hd2.
    assert (D : decrements ([EvConnClose (fd (Conn_ c)); EvAddInt32 (-1)] ++ t3) = 1%nat).
    { unfold decrements in *. rewrite count_occ_app, Hd2. reflexivity. }
    assert (I : increments ([EvConnClose (fd (Conn_ c)); EvAddInt32 (-1)] ++ t3) = 0%nat).
    { unfold increments in *. rewrite count_occ_app, Hi2. reflexivity. }
    change ([EvConnClose (fd (Conn_ c)); EvAddInt32 (-1)] ++ t3)
      with (EvConnClose (fd (Conn_ c)) :: EvAddInt32 (-1) :: t3) in D, I.
    repeat split; [exact D | exact I |].
    unfold increments, decrements in *.
    rewrite !count_occ_app, Hi, Hd, D, I. reflexivity.
  - intros n Hn. destruct n as [| n]; [lia |]. simpl.
    destruct (limitConn_Close_first c l1 Ho Hr) as (err & sock & E1).
    rewrite E1.
    pose proof (closeMany_quiet_after_first n (mkLimitConn sock true removeConn)
                  (snd (fst (removeConn l1))) eq_refl) as Q.
    destruct (closeMany (repeat (fun x => x) n) (mkLimitConn sock true removeConn)
                (snd (fst (removeConn l1)))) as [[c3 l3] t3].
    simpl in Q. simpl. subst l3. simpl.
    split; [reflexivity |].
    intros Hr32. rewrite Hc. apply GoIntFacts.int32_inc_dec. exact Hr32.
Qed.

(** On the idle listener: accept, then close the connection three times. *)
Lemma LimitListener_count_balanced_witness :
  Accept Examples.idleListener
  = (inl Examples.acceptedConn, Examples.oneOpenListener, Examples.acceptCalls)
  /\ increments Examples.acceptCalls = 1%nat
  /\ decrements
       (snd (closeMany [fun x => x; fun x => x; fun x => x]
               Examples.acceptedConn Examples.oneOpenListener)) = 1%nat
  /\ conns (snd (fst (closeMany (repeat (fun x => x) 3)
                        Examples.acceptedConn Examples.oneOpenListener)))
     = GoInt.int32 (1 + -1).
Proof.
  assert (E : Accept Examples.idleListener
              = (inl Examples.acceptedConn, Examples.oneOpenListener,
                 Examples.acceptCalls)) by reflexivity.
  destruct (LimitListener_count_balanced _ _ _ _ E) as ((Hi & _ & _) & Hcl & Hq).
  split; [exact E |]. split; [exact Hi |]. split.
  - destruct (closeMany [fun x => x; fun x => x; fun x => x]
                Examples.acceptedConn Examples.oneOpenListener) as [[c2 l2] t2] eqn:E2.
    assert (Hne : [fun x : LimitListener => x; fun x => x; fun x => x] <> [])
      by discriminate.
    destruct (Hcl _ c2 l2 t2 Hne E2) as (Hd & _). exact Hd.
  - exact (proj1 (Hq 3%nat ltac:(lia))).
Defined.

(** *** Refusals *)

(** C5, as stated, fails where the two conditions meet: a full listener
    that has been closed does not answer "Too many requests". *)
Lemma Accept_full_closed_not_TooBusy :
  ConnCount Examples.fullClosedListener >= MaxConns Examples.fullClosedListener
  /\ fst (fst (Accept Examples.fullClosedListener)) <> inr (ListenerErr errTooBusy)
  /\ fst (fst (Accept Examples.fullClosedListener)) = inr (ListenerErr errClosed).
Proof.
  split; [vm_compute; discriminate |].
  split; [vm_compute; discriminate | reflexivity].
Qed.

(** C5, amended. While the listener has not been closed, [Accept] answers
    the temporary "Too many requests" whenever the active count is at or
    above [MaxConns], and the wrapped listener's Accept is not called (no
    call at all is made, the listener is unchanged).  Once Close has been
    observed, [Accept] answers the permanent "Listener closed". *)
Theorem Accept_refusals (l : LimitListener) :
  (Once_IsDone (closeOnce l) = false ->
   ConnCount l >= MaxConns l ->
   Accept l = (inr (ListenerErr errTooBusy), l, [])
   /\ underlyingAccepts (snd (Accept l)) = 0%nat
   /\ ListenerError_Temporary errTooBusy = true
   /\ ListenerError_Error errTooBusy = "Too many requests"%string)
  /\ (Once_IsDone (closeOnce l) = true ->
      Accept l = (inr (ListenerErr errClosed), l, [])
      /\ ListenerError_Temporary errClosed = false
      /\ ListenerError_Error errClosed = "Listener closed"%string).
Proof.
  split.
  - intros Hd Hc. rewrite (Accept_when_busy l Hd Hc). repeat split.
  - intros Hd. rewrite (Accept_when_closed l Hd). repeat split.
Qed.

Lemma Accept_refusals_witness :
  Accept Examples.fullListener
  = (inr (ListenerErr errTooBusy), Examples.fullListener, [])
  /\ Accept Examples.fullClosedListener
     = (inr (ListenerErr errClosed), Examples.fullClosedListener, []).
Proof.
  split.
  - apply (proj1 (Accept_refusals Examples.fullListener));
      [reflexivity | vm_compute; discriminate].
  - apply (proj2 (Accept_refusals Examples.fullClosedListener)). reflexivity.
Defined.

(** C9. The closed check comes first: a closed listener answers the
    permanent "Listener closed", not the temporary "Too many requests",
    also when the active count is at or above [MaxConns]. *)
Theorem Accept_closed_before_busy (l : LimitListener) :
  Once_IsDone (closeOnce l) = true ->
  ConnCount l >= MaxConns l ->
  Accept l = (inr (ListenerErr errClosed), l, [])
  /\ ListenerError_Temporary errClosed = false
  /\ errClosed <> errTooBusy.
Proof.
  intros Hd _. rewrite (Accept_when_closed l Hd).
  repeat split. discriminate.
Qed.

Lemma Accept_closed_before_busy_witness :
  Accept Examples.fullClosedListener
  = (inr (ListenerErr errClosed), Examples.fullClosedListener, []).
Proof.
  apply (Accept_closed_before_busy Examples.fullClosedListener);
    [reflexivity | vm_compute; discriminate].
Defined.

End NetFacts.

(** ** The frame classifier *)

Module ClassifierFacts.

Import Worker ClassifierSpec.

(** The loop body, as a chain of comparisons. *)
Lemma countBraces_step (b : byte) (rest : list byte) (L R : Z) :
  countBraces (b :: rest) L R
  = if Byte.eqb b "{"%byte then countBraces rest (GoInt.int (L + 1)) R
    else if Byte.eqb b "}"%byte then countBraces rest L (GoInt.int (R + 1))
    else if permitted b then countBraces rest L R
    else None.
Proof. destruct b; reflexivity. Qed.

Lemma permitted_brace (b : byte) :
  Byte.eqb b "{"%byte = true \/ Byte.eqb b "}"%byte = true -> permitted b = true.
Proof.
  unfold permitted. intros [E | E]; rewrite E; [reflexivity |].
  destruct (Byte.eqb b "{"%byte); reflexivity.
Qed.

Lemma countByte_bounds (x : byte) (raw : list byte) :
  0 <= countByte x raw <= len raw.
Proof.
  unfold len. induction raw as [| b rest IH]; simpl countByte.
  - simpl. lia.
  - simpl List.length. destruct (Byte.eqb b x); lia.
Qed.

Lemma eqb_left_not_right (b : byte) :
  Byte.eqb b "{"%byte = true -> Byte.eqb b "}"%byte = false.
Proof. intros E. apply byte_dec_bl in E. subst b. reflexivity. Qed.

(** As long as the counters cannot overflow, the loop computes the two
    counts, and leaves early exactly on a byte that is not permitted. *)
Lemma countBraces_counts (raw : list byte) :
  forall L R : Z,
    0 <= L -> 0 <= R ->
    L + len raw <= GoInt.MaxInt64 -> R + len raw <= GoInt.MaxInt64 ->
    countBraces raw L R
    = if forallb permitted raw
      then Some (L + countByte "{"%byte raw, R + countByte "}"%byte raw)
      else None.
Proof.
  induction raw as [| b rest IH]; intros L R HL HR BL BR.
  - simpl. rewrite !Z.add_0_r. reflexivity.
  - rewrite countBraces_step.
    assert (Hlen : len (b :: rest) = 1 + len rest) by (unfold len; simpl List.length; lia).
    rewrite Hlen in BL, BR.
    pose proof (countByte_bounds "{"%byte rest) as B1.
    simpl forallb. simpl countByte.
    destruct (Byte.eqb b "{"%byte) eqn:E1.
    + rewrite (permitted_brace b (or_introl E1)), (eqb_left_not_right b E1). simpl andb.
      rewrite GoIntFacts.int_small by (unfold GoInt.MaxInt64, GoInt.MinInt64 in *; lia).
      rewrite IH by lia.
      destruct (forallb permitted rest); [f_equal; f_equal; lia | reflexivity].
    + destruct (Byte.eqb b "}"%byte) eqn:E2.
      * rewrite (permitted_brace b (or_intror E2)). simpl andb.
        rewrite GoIntFacts.int_small by (unfold GoInt.MaxInt64, GoInt.MinInt64 in *; lia).
        rewrite IH by lia.
        destruct (forallb permitted rest); [f_equal; f_equal; lia | reflexivity].
      * destruct (permitted b); simpl andb; [| reflexivity].
        rewrite IH by lia.
        destruct (forallb permitted rest); [f_equal; f_equal; lia | reflexivity].
Qed.

(** The fast path test of the code is the spec's "exactly the two bytes". *)
Lemma fast_path_test (raw : list byte) :
  (len raw =? 2) && Byte.eqb (nth 0 raw x00) "{"%byte && Byte.eqb (nth 1 raw x00) "}"%byte
  = isEmptyObject raw.
Proof.
  destruct raw as [| a [| b [| c rest]]]; try reflexivity.
  unfold isEmptyObject.
  replace (len (a :: b :: c :: rest) =? 2) with false; [reflexivity |].
  symmetry. apply Z.eqb_neq. unfold len. simpl List.length. lia.
Qed.

(** C6. On every byte slice (whose length, as for any Go slice, fits an
    [int]) [isPingBody] returns what the three steps of section 4.2 say:
    ping for a slice shorter than two bytes or exactly [{}]; otherwise not
    ping and no error when a byte outside the braces and the four
    whitespace bytes occurs; otherwise ping exactly when there is at most
    one left brace and as many right braces; bad payload in the remaining
    cases. *)
Theorem isPingBody_classify (raw : list byte) :
  len raw <= GoInt.MaxInt64 ->
  isPingBody raw = classify raw.
Proof.
  intros Hlen. unfold isPingBody, classify.
  rewrite <- andb_assoc, andb_assoc, fast_path_test.
  destruct ((len raw <? 2) || isEmptyObject raw); [reflexivity |].
  rewrite (countBraces_counts raw 0 0) by lia.
  destruct (forallb permitted raw); reflexivity.
Qed.

(** A lone pair of braces between whitespace is a ping. *)
Lemma isPingBody_classify_witness :
  isPingBody [" "%byte; "{"%byte; x0a; "}"%byte; x09] = (true, None).
Proof.
  rewrite (isPingBody_classify [" "%byte; "{"%byte; x0a; "}"%byte; x09]).
  - reflexivity.
  - vm_compute. discriminate.
Defined.

(** The classifier on a few frames: nested braces and an unbalanced brace
    are bad payloads, a frame with any other byte goes on to the JSON
    decoder, a single byte is a ping. *)
Example isPingBody_nested :
  isPingBody ["{"%byte; "{"%byte; "}"%byte; "}"%byte] = (false, Some ErrBadPayload).
Proof. reflexivity. Qed.

Example isPingBody_unbalanced :
  isPingBody ["{"%byte; " "%byte; " "%byte] = (false, Some ErrBadPayload).
Proof. reflexivity. Qed.

Example isPingBody_command :
  isPingBody ["{"%byte; "a"%byte; "}"%byte] = (false, None).
Proof. reflexivity. Qed.

Example isPingBody_single_byte : isPingBody ["a"%byte] = (true, None).
Proof. reflexivity. Qed.

End ClassifierFacts.

(** ** The worker *)

Module WorkerFacts.

Import Worker PingSpec.

Lemma strlen_zero (s : string) : strlen s = 0 <-> s = EmptyString.
Proof.
  unfold strlen. destruct s; simpl String.length; split; intros E;
    try reflexivity; try discriminate; lia.
Qed.

Lemma strlen_eqb_zero (s : string) : (strlen s =? 0) = String.eqb s EmptyString.
Proof.
  destruct (String.eqb_spec s EmptyString) as [E | E].
  - apply Z.eqb_eq, strlen_zero, E.
  - apply Z.eqb_neq. intros Z0. apply E, strlen_zero, Z0.
Qed.

Section WithStore.

Context {T : Type} `{StoreOps T}.
Variable X : Externals.

(** *** Commands that need a bound device *)

Lemma Register_unbound (header : RequestHeader) (message : list byte) (st : @St T) :
  Uaid (sock st) = EmptyString ->
  Register X header message st = (Some ErrInvalidCommand, st).
Proof. intros E. unfold Register. rewrite E. reflexivity. Qed.

Lemma Unregister_unbound (header : RequestHeader) (message : list byte) (st : @St T) :
  Uaid (sock st) = EmptyString ->
  Unregister X header message st = (Some ErrInvalidCommand, st).
Proof. intros E. unfold Unregister. rewrite E. reflexivity. Qed.

Lemma Ack_unbound (header : RequestHeader) (message : list byte) (st : @St T) :
  Uaid (sock st) = EmptyString ->
  Ack X header message st = (Some ErrInvalidCommand, st).
Proof. intros E. unfold Ack. rewrite E. reflexivity. Qed.

(** [Purge] does not look at the device id at all. *)
Lemma Purge_any (header : RequestHeader) (message : list byte) (st : @St T) :
  fst (Purge header message st) = None
  /\ outbox (Socket (sock (snd (Purge header message st))))
     = outbox (Socket (sock st)) ++ [Bytes "{}"].
Proof. split; reflexivity. Qed.

(** *** Flush keeps what the handshake set up *)

Lemma countSent_frame (updates : list Update) :
  forall st : @St T,
    self (countSent updates st) = self st
    /\ sock (countSent updates st) = sock st
    /\ commands (countSent updates st) = commands st
    /\ generated (countSent updates st) = generated st.
Proof.
  induction updates as [| u rest IH]; intros st; simpl.
  - repeat split.
  - destruct (IH (metrics_Increment "updates.sent" st)) as (A & B & C & D).
    rewrite A, B, C, D. repeat split.
Qed.

Lemma Flush_frame (lastAccessed : Z) (channel : string) (version : Z) (st : @St T) :
  let st' := snd (Flush lastAccessed channel version st) in
  state (self st') = state (self st)
  /\ Uaid (sock st') = Uaid (sock st)
  /\ commands st' = commands st
  /\ exists extra,
       outbox (Socket (sock st')) = outbox (Socket (sock st)) ++ extra.
Proof.
  unfold Flush. cbv zeta.
  destruct (String.eqb (Uaid (sock st)) EmptyString).
  - simpl. repeat split. exists []. rewrite app_nil_r. reflexivity.
  - set (fetched := if strlen channel =? 0 then _ else _).
    destruct fetched as [err | [updates [reply |]]]; simpl.
    + repeat split. exists []. rewrite app_nil_r. reflexivity.
    + destruct (strlen channel >? 0).
      * destruct (countSent_frame updates st) as (A & B & C & D).
        unfold Socket_Send, WebSocket_Send. simpl. rewrite A, B, C.
        repeat split. exists [reply]. reflexivity.
      * unfold Socket_Send, WebSocket_Send. simpl.
        repeat split. exists [reply]. reflexivity.
    + repeat split. exists []. rewrite app_nil_r. reflexivity.
Qed.

(** *** Ping *)



(** *** Unregister *)

(** C8. With a bound device id and a non-empty channel id, [Unregister]
    returns no error and sends one reply with status 200, whatever the
    store's [Unregister] answers: the theorem holds for every store. *)
Theorem Unregister_always_200
    (header : RequestHeader) (message : list byte) (st : @St T)
    (request : UnregisterRequest) :
  Uaid (sock st) <> EmptyString ->
  json_Unmarshal_Unregister X message = Some request ->
  unreg_ChannelID request <> EmptyString ->
  let r := Unregister X header message st in
  let reply := UnregisterReply (Type_ header) 200 (unreg_ChannelID request) in
  fst r = None
  /\ outbox (Socket (sock (snd r))) = outbox (Socket (sock st)) ++ [reply]
  /\ Frame_status reply = Some 200
  /\ Store (sock (snd r))
     = snd (Store_Unregister (Uaid (sock st)) (unreg_ChannelID request) (Store (sock st))).
Proof.
  intros Hu Hj Hc. cbv zeta. unfold Unregister.
  destruct (String.eqb_spec (Uaid (sock st)) EmptyString) as [E | _]; [contradiction |].
  rewrite Hj, strlen_eqb_zero.
  destruct (String.eqb_spec (unreg_ChannelID request) EmptyString) as [E | _];
    [contradiction |].
  destruct (Store_Unregister (Uaid (sock st)) (unreg_ChannelID request) (Store (sock st)))
    as [serr store].
  simpl. repeat split.
Qed.

(** *** Hello *)

(** What the code decides at the last gate before [registerDevice], when
    the connection has no device id yet, the suggested id is non-empty and
    well-formed, no client of this process has it and the channel list is
    within [maxChannels]: the store is asked about the connection's id,
    which is the empty string here, not about the suggested id. *)
Lemma Hello_decide_store_gate
    (message : list byte) (st : @St T) (request : HelloRequest)
    (suggestedUAID : string) (chids : list JSON) :
  json_Unmarshal_Hello X message = Some request ->
  DeviceID request = Some suggestedUAID ->
  ChannelIDs request = Some chids ->
  Uaid (sock st) = EmptyString ->
  suggestedUAID <> EmptyString ->
  id_Valid X suggestedUAID = true ->
  ClientExists (app (self st)) suggestedUAID = false ->
  len chids <= maxChannels (self st) ->
  exists st1,
    Hello_decide X message st
    = inr (negb (Store_Exists (Store (sock st)) EmptyString) && (len chids >? 0),
           request, chids, st1).
Proof.
  intros Hj Hd Hc Hu Hs Hv Hx Hm. unfold Hello_decide.
  rewrite Hj, Hd, Hc, Hu. simpl strlen. simpl (0 >? 0).
  rewrite strlen_eqb_zero.
  destruct (String.eqb_spec suggestedUAID EmptyString) as [E | _]; [contradiction |].
  rewrite Hv, Hx. simpl negb.
  destruct (Z.gtb_spec (len chids) (maxChannels (self st))) as [G | _]; [lia |].
  destruct (negb (Store_Exists (Store (sock st)) EmptyString) && (len chids >? 0));
    eexists; reflexivity.
Qed.

(** C10. On a forced reset the generator's error is dropped. If
    [id.Generate] returns an id (possibly empty) together with an error,
    [Hello] binds that id to the connection, gives the router a [HELLO]
    command carrying it, writes the hello reply carrying it, sets the
    worker state to [WorkerActive], and, the write having succeeded,
    returns what [Flush] returns; the generator's error is not part of the
    outcome. *)
Theorem Hello_reset_drops_generator_error
    (header : RequestHeader) (message : list byte) (st st1 : @St T)
    (request : HelloRequest) (chids : list JSON)
    (uaid : string) (gerr : error) :
  Hello_decide X message st = inr (true, request, chids, st1) ->
  id_Generate X (generated st1) = (uaid, Some gerr) ->
  let r := Hello X header message st in
  let cmd := HELLO (id (self st1)) uaid chids (PingData request) in
  let reply := Bytes (sprintf_hello (Type_ header) (fst (HandleCommand X cmd uaid)) uaid) in
  Uaid (sock (snd r)) = uaid
  /\ commands (snd r) = commands st1 ++ [cmd]
  /\ (exists extra,
        outbox (Socket (sock (snd r))) = outbox (Socket (sock st1)) ++ reply :: extra)
  /\ state (self (snd r)) = WorkerActive
  /\ (transport (Socket (sock st1)) = None ->
      exists st5,
        r = Flush 0 EmptyString 0 st5
        /\ Uaid (sock st5) = uaid /\ state (self st5) = WorkerActive)
  /\ (forall werr, transport (Socket (sock st1)) = Some werr -> fst r = Some werr).
Proof.
  intros Hd Hg. cbv zeta. unfold Hello. rewrite Hd.
  unfold Hello_registerDevice. rewrite Hg. simpl.
  destruct (HandleCommand X (HELLO (id (self st1)) uaid chids (PingData request)) uaid)
    as [status args] eqn:HC.
  simpl. unfold Socket_Send, WebSocket_Send. simpl.
  destruct (transport (Socket (sock st1))) as [werr |] eqn:TR.
  - simpl. repeat split; try discriminate.
    + exists []. reflexivity.
    + intros w E. inversion E. reflexivity.
  - match goal with
    | |- context [Flush 0 EmptyString 0 ?s] =>
        set (st5 := s);
        destruct (Flush_frame 0 EmptyString 0 st5) as (A & B & C & (extra & D))
    end.
    cbv zeta in A, B, C, D. rewrite A, B, C, D. simpl.
    repeat split; try discriminate.
    + exists extra. rewrite <- app_assoc. reflexivity.
    + intros _. exists st5. repeat split.
Qed.

End WithStore.

(** *** A new worker *)

(** C3, on the code: [NewWorker] returns a worker whose state is already
    [WorkerActive]. *)
Theorem NewWorker_state_Active
    {T : Type} `{StoreOps T} (a : Application) (rid : string) :
  state (NewWorker a rid) = WorkerActive
  /\ state (NewWorker a rid) <> WorkerInactive.
Proof. split; [reflexivity | discriminate]. Qed.

End WorkerFacts.

(** ** The handlers on concrete connections *)

Module Scenarios.

Import Worker PingSpec Examples.

(** C1, on the code. Device A is in the store and shakes hands with its
    id and one channel, on a connection with no id yet; the id is
    well-formed, no client of this process has it, one channel is within
    [maxChannels].  The store holds the suggested id, and still the
    handshake is reset: the connection gets the generated id. *)
Theorem Hello_resets_stored_device :
  Store_Exists (Store (sock unboundSt)) deviceA = true
  /\ Uaid (sock unboundSt) = EmptyString
  /\ id_Valid X1 deviceA = true
  /\ ClientExists (app (self unboundSt)) deviceA = false
  /\ len [JString "c1"] <= maxChannels (self unboundSt)
  /\ Hello_decide X1 [] unboundSt = inr (true, helloA, [JString "c1"], unboundSt)
  /\ Uaid (sock (snd (Hello X1 (mkRequestHeader "hello") [] unboundSt))) = deviceB
  /\ deviceB <> deviceA.
Proof.
  split; [reflexivity |]. split; [reflexivity |]. split; [reflexivity |].
  split; [reflexivity |]. split; [vm_compute; discriminate |].
  split; [reflexivity |]. split; [reflexivity | discriminate].
Qed.

(** C2, on the code. [Purge] on a connection with no device id returns no
    error and sends [{}]; [Register], [Unregister] and [Ack] refuse there
    (lemmas [Register_unbound], [Unregister_unbound], [Ack_unbound]). *)
Theorem Purge_unbound_succeeds :
  Uaid (sock unboundSt) = EmptyString
  /\ fst (Purge (mkRequestHeader "purge") [] unboundSt) = None
  /\ fst (Purge (mkRequestHeader "purge") [] unboundSt) <> Some ErrInvalidCommand
  /\ outbox (Socket (sock (snd (Purge (mkRequestHeader "purge") [] unboundSt))))
     = [Bytes "{}"].
Proof.
  split; [reflexivity |]. split; [reflexivity |].
  split; [discriminate | reflexivity].
Qed.



(** Unregistering a channel that was never registered: the store reports
    an error, the client gets its 200. *)
Lemma Unregister_always_200_witness :
  fst (Store_Unregister deviceA "c1" (Store (sock boundEmptySt)))
  = Some (ErrOpaque "no such channel")
  /\ fst (Unregister X1 (mkRequestHeader "unregister") [] boundEmptySt) = None
  /\ outbox (Socket (sock (snd (Unregister X1 (mkRequestHeader "unregister") []
                                  boundEmptySt))))
     = [UnregisterReply "unregister" 200 "c1"].
Proof.
  split; [reflexivity |].
  assert (Hu : Uaid (sock boundEmptySt) <> EmptyString) by discriminate.
  assert (Hj : json_Unmarshal_Unregister X1 [] = Some (mkUnregisterRequest "c1"))
    by reflexivity.
  assert (Hc : unreg_ChannelID (mkUnregisterRequest "c1") <> EmptyString)
    by discriminate.
  destruct (WorkerFacts.Unregister_always_200 X1 (mkRequestHeader "unregister") []
              boundEmptySt (mkUnregisterRequest "c1") Hu Hj Hc) as (A & B & _).
  split; [exact A | exact B].
Defined.

(** The generator fails and hands back the empty id: the handshake goes
    through with it. *)
Lemma Hello_reset_drops_generator_error_witness :
  Uaid (sock (snd (Hello X2 (mkRequestHeader "hello") [] unboundSt))) = EmptyString
  /\ commands (snd (Hello X2 (mkRequestHeader "hello") [] unboundSt))
     = [HELLO "rid-1" EmptyString [JString "c1"] []]
  /\ state (self (snd (Hello X2 (mkRequestHeader "hello") [] unboundSt))) = WorkerActive.
Proof.
  assert (Hd : Hello_decide X2 [] unboundSt
               = inr (true, helloA, [JString "c1"], unboundSt)) by reflexivity.
  assert (Hg : id_Generate X2 (generated unboundSt)
               = (EmptyString, Some (ErrOpaque "rand: short read"))) by reflexivity.
  destruct (WorkerFacts.Hello_reset_drops_generator_error X2 (mkRequestHeader "hello")
              [] unboundSt unboundSt helloA [JString "c1"] EmptyString
              (ErrOpaque "rand: short read") Hd Hg) as (A & B & _ & D & _).
  split; [exact A |]. split; [exact B | exact D].
Defined.

(** With the empty id the flush that follows finds no device, sets the
    stopped flag and returns nil: the handshake reports success. *)
Example Hello_failed_generator_outcome :
  fst (Hello X2 (mkRequestHeader "hello") [] unboundSt) = None
  /\ stopped (self (snd (Hello X2 (mkRequestHeader "hello") [] unboundSt))) = true
  /\ outbox (Socket (sock (snd (Hello X2 (mkRequestHeader "hello") [] unboundSt))))
     = [Bytes (sprintf_hello "hello" 200 EmptyString)].
Proof. repeat split. Qed.

End Scenarios.

(** ** The listener in use: slots *)

Module ServingFacts.

Import Net Serving.

(** A failed accept on the wrapped listener is passed on as it is and
    takes no slot. *)
Theorem Accept_underlying_error (l : LimitListener) (err : error) :
  Once_IsDone (closeOnce l) = false ->
  ConnCount l < MaxConns l ->
  incoming (Listener_ l) (served (Listener_ l)) = inr err ->
  fst (fst (Accept l)) = inr err
  /\ conns (snd (fst (Accept l))) = conns l
  /\ snd (Accept l) = [EvAccept].
Proof.
  intros Hd Hc Hi. unfold Accept. rewrite Hd.
  destruct (Z.geb_spec (ConnCount l) (MaxConns l)) as [G | _]; [lia |].
  unfold Listener_Accept. rewrite Hi. simpl. repeat split.
Qed.

(** The connection [Accept] returns is the wrapped listener's socket,
    with keep-alive switched on and its period set exactly when the
    listener's period is positive and the socket offers the keep-alive
    methods; any other socket is handed on untouched. *)
Theorem Accept_keepAlive (l l1 : LimitListener) (c : limitConn) (t : list Event) :
  Accept l = (inl c, l1, t) ->
  exists socket,
    incoming (Listener_ l) (served (Listener_ l)) = inl socket
    /\ fd (Conn_ c) = fd socket
    /\ isOpen (Conn_ c) = isOpen socket
    /\ if (KeepAlivePeriod l >? 0) && isKeepAliver socket
       then keepAlive (Conn_ c) = true
            /\ keepAlivePeriod (Conn_ c) = KeepAlivePeriod l
       else Conn_ c = socket.
Proof.
  unfold Accept.
  destruct (Once_IsDone (closeOnce l)); [discriminate |].
  destruct (ConnCount l >=? MaxConns l); [discriminate |].
  unfold Listener_Accept.
  destruct (incoming (Listener_ l) (served (Listener_ l))) as [socket | err];
    [| discriminate].
  unfold setKeepAlive. simpl KeepAlivePeriod.
  destruct (Z.leb_spec (KeepAlivePeriod l) 0) as [Le | Gt].
  - simpl. intros E. inversion E; subst; clear E. exists socket.
    replace (KeepAlivePeriod l >? 0) with false
      by (symmetry; rewrite Z.gtb_ltb; apply Z.ltb_ge; exact Le).
    simpl. repeat split.
  - replace (KeepAlivePeriod l >? 0) with true
      by (symmetry; rewrite Z.gtb_ltb; apply Z.ltb_lt; exact Gt).
    destruct (isKeepAliver socket) eqn:K; simpl;
      intros E; inversion E; subst; clear E; exists socket; simpl;
      rewrite ?K; repeat split.
Qed.

(** *** The count is the number of open connections *)

Lemma live_app (a b : list limitConn) : live (a ++ b) = (live a + live b)%nat.
Proof. unfold live. rewrite filter_app, length_app. reflexivity. Qed.

Lemma live_replaceNth (cs : list limitConn) :
  forall (i : nat) (c c' : limitConn),
    nth_error cs i = Some c ->
    (live (replaceNth i c' cs) + (if removeOnce c then 0 else 1))%nat
    = (live cs + (if removeOnce c' then 0 else 1))%nat.
Proof.
  induction cs as [| a rest IH]; intros i c c' Hn.
  - destruct i; discriminate.
  - destruct i as [| j]; simpl in Hn.
    + inversion Hn; subst a. unfold live. simpl.
      destruct (removeOnce c), (removeOnce c'); simpl; lia.
    + specialize (IH j c c' Hn). unfold live in *. simpl.
      destruct (removeOnce a); simpl; lia.
Qed.

Lemma Forall_replaceNth {A : Type} (P : A -> Prop) (l : list A) :
  forall (i : nat) (x : A), Forall P l -> P x -> Forall P (replaceNth i x l).
Proof.
  induction l as [| a rest IH]; intros i x Hl Hx; simpl.
  - destruct i; constructor.
  - inversion Hl; subst. destruct i; constructor; auto.
Qed.

Lemma ConnCount_small (l : LimitListener) :
  0 <= conns l <= GoInt.MaxInt32 -> ConnCount l = conns l.
Proof.
  intros Hr. unfold ConnCount. apply GoIntFacts.int_small.
  unfold GoInt.MaxInt32, GoInt.MinInt64, GoInt.MaxInt64 in *. simpl in *. lia.
Qed.

Lemma int32_nonneg_small (z : Z) : 0 <= z <= GoInt.MaxInt32 -> GoInt.int32 z = z.
Proof.
  intros Hr. unfold GoInt.int32. apply GoIntFacts.wrap_small; [lia |].
  unfold GoInt.MaxInt32 in Hr. simpl in *. lia.
Qed.

Lemma call_balanced (maxConns : Z) (k : Call) (s : Server) :
  maxConns <= GoInt.MaxInt32 ->
  balanced maxConns s -> balanced maxConns (call k s).
Proof.
  intros Hmax (Hm & Hf & Hc & Hb).
  assert (H32 : GoInt.MaxInt32 = 2147483647) by reflexivity.
  assert (Hrange : 0 <= conns (listener s) <= GoInt.MaxInt32) by lia.
  destruct k as [| i |]; simpl.
  - (* Accept *)
    unfold Accept.
    destruct (Once_IsDone (closeOnce (listener s))); [repeat split; assumption |].
    rewrite (ConnCount_small _ Hrange).
    destruct (Z.geb_spec (conns (listener s)) (MaxConns (listener s))) as [G | L];
      [repeat split; assumption |].
    unfold Listener_Accept.
    destruct (incoming (Listener_ (listener s)) (served (Listener_ (listener s))))
      as [socket | err].
    + destruct (setKeepAlive _ socket) as [socket' t1]. simpl.
      unfold balanced. cbn [listener handed MaxConns conns].
      rewrite live_app.
      change (live [mkLimitConn socket' false removeConn]) with 1%nat.
      rewrite int32_nonneg_small by lia.
      repeat split; try assumption; try lia.
      apply Forall_app. split; [assumption | constructor; [reflexivity | constructor]].
    + simpl. repeat split; assumption.
  - (* Close of a connection *)
    destruct (nth_error (handed s) i) as [c |] eqn:Hn; [| repeat split; assumption].
    assert (Hr : removeConn_ c = removeConn).
    { rewrite Forall_forall in Hf. apply Hf. eapply nth_error_In. exact Hn. }
    destruct (removeOnce c) eqn:Ho.
    + destruct (NetFacts.limitConn_Close_again c (listener s) Ho) as (e & sock & E).
      rewrite E. unfold balanced. cbn [listener handed MaxConns conns].
      pose proof (live_replaceNth (handed s) i c (mkLimitConn sock true (removeConn_ c)) Hn)
        as L. rewrite Ho in L. cbn [removeOnce] in L.
      repeat split; try assumption.
      * apply Forall_replaceNth; [assumption | exact Hr].
      * lia.
      * lia.
    + destruct (NetFacts.limitConn_Close_first c (listener s) Ho Hr) as (e & sock & E).
      rewrite E. unfold balanced. cbn [listener handed].
      change (conns (snd (fst (removeConn (listener s)))))
        with (GoInt.int32 (conns (listener s) + -1)).
      change (MaxConns (snd (fst (removeConn (listener s)))))
        with (MaxConns (listener s)).
      pose proof (live_replaceNth (handed s) i c (mkLimitConn sock true removeConn) Hn)
        as L. rewrite Ho in L. cbn [removeOnce] in L.
      rewrite int32_nonneg_small by lia.
      repeat split; try assumption.
      * apply Forall_replaceNth; [assumption | reflexivity].
      * lia.
      * lia.
  - (* Close of the listener *)
    unfold Net.Close, Once_Do.
    destruct (once_done (closeOnce (listener s))); [repeat split; assumption |].
    destruct (Listener_Close (Listener_ (listener s))) as [e ln]. simpl.
    repeat split; assumption.
Qed.

Lemma run_balanced (maxConns : Z) (ks : list Call) :
  forall s : Server,
    maxConns <= GoInt.MaxInt32 ->
    balanced maxConns s -> balanced maxConns (run ks s).
Proof.
  induction ks as [| k rest IH]; intros s Hmax Hb; simpl.
  - exact Hb.
  - apply IH; [exact Hmax |]. apply call_balanced; assumption.
Qed.

(** From [Listen] on, through any sequence of accepts, closes of
    connections (repeated or not) and closes of the listener, the active
    count is the number of connections handed out and not yet closed, and
    it never exceeds [MaxConns] (nor drops below zero), for a [MaxConns]
    the 32-bit counter can hold. *)
Theorem Server_count_is_live
    (ln : Listener) (maxConns keepAlivePeriod : Z) (l0 : LimitListener)
    (ks : list Call) :
  Listen (inl ln) maxConns keepAlivePeriod = inl l0 ->
  maxConns <= GoInt.MaxInt32 ->
  let s := run ks (mkServer l0 []) in
  ConnCount (listener s) = Z.of_nat (live (handed s))
  /\ 0 <= ConnCount (listener s) <= Z.max 0 maxConns.
Proof.
  intros HL Hmax. simpl in HL. inversion HL; subst l0; clear HL. cbv zeta.
  assert (B0 : balanced maxConns
                 (mkServer (mkLimitListener ln maxConns keepAlivePeriod 0 (mkOnce false)) [])).
  { repeat split; simpl; try constructor. lia. }
  destruct (run_balanced maxConns ks _ Hmax B0) as (_ & _ & Hc & Hb).
  assert (H32 : GoInt.MaxInt32 = 2147483647) by reflexivity.
  rewrite ConnCount_small by lia. lia.
Qed.

End ServingFacts.

(** ** URLs, addresses and Retry-After *)

Module NetUtilFacts.

Import Worker NetUtil.

Local Open Scope string_scope.

(** *** Strings *)

Lemma append_nil_r (s : string) : s ++ EmptyString = s.
Proof. induction s as [| a s IH]; simpl; [reflexivity | rewrite IH; reflexivity]. Qed.


Lemma append_inv_head (p a b : string) : p ++ a = p ++ b -> a = b.
Proof.
  induction p as [| x p IH]; simpl; intros E; [exact E |].
  inversion E. auto.
Qed.

Lemma list_of_append (a b : string) :
  list_ascii_of_string (a ++ b)
  = (list_ascii_of_string a ++ list_ascii_of_string b)%list.
Proof. induction a as [| x a IH]; simpl; [reflexivity | rewrite IH; reflexivity]. Qed.

Lemma list_of_string_inj (a b : string) :
  list_ascii_of_string a = list_ascii_of_string b -> a = b.
Proof.
  intros E. rewrite <- (string_of_list_ascii_of_string a),
    <- (string_of_list_ascii_of_string b), E. reflexivity.
Qed.

Lemma append_inv_tail (a b s : string) : a ++ s = b ++ s -> a = b.
Proof.
  intros E. apply list_of_string_inj.
  apply (f_equal list_ascii_of_string) in E. rewrite !list_of_append in E.
  eapply app_inv_tail. exact E.
Qed.

Lemma occurs_append (c : ascii) (a b : string) :
  occurs c (a ++ b) <-> occurs c a \/ occurs c b.
Proof. unfold occurs. rewrite list_of_append. apply in_app_iff. Qed.

Lemma indexByteFrom_range (s : string) (c : ascii) :
  forall i : Z, 0 <= i -> indexByteFrom s c i = -1 \/ i <= indexByteFrom s c i.
Proof.
  induction s as [| a s IH]; intros i Hi; simpl.
  - left; reflexivity.
  - destruct (Ascii.eqb a c); [right; lia |].
    destruct (IH (i + 1) ltac:(lia)) as [E | E]; [left; exact E | right; lia].
Qed.

Lemma indexByteFrom_occurs (s : string) (c : ascii) :
  forall i : Z, 0 <= i -> (0 <= indexByteFrom s c i <-> occurs c s).
Proof.
  unfold occurs. induction s as [| a s IH]; intros i Hi; simpl.
  - split; [lia | intros []].
  - destruct (Ascii.eqb_spec a c) as [E | N].
    + split; [intros _; left; exact E | intros _; lia].
    + rewrite (IH (i + 1) ltac:(lia)). split; [intros O; right; exact O |].
      intros [E | O]; [contradiction | exact O].
Qed.

Lemma IndexByte_test (s : string) (c : ascii) :
  (strings_IndexByte s c >=? 0)%Z = true <-> occurs c s.
Proof.
  unfold strings_IndexByte. rewrite Z.geb_leb, Z.leb_le.
  apply indexByteFrom_occurs. lia.
Qed.

Lemma Replace_keeps_percent (s : string) :
  occurs "%"%char s -> occurs "%"%char (strings_ReplaceByte s "%"%char "%25").
Proof.
  unfold occurs. induction s as [| a s IH]; simpl; [intros [] |].
  destruct (Ascii.eqb_spec a "%"%char) as [E | N].
  - intros _. simpl. left. reflexivity.
  - intros [E | O]; [contradiction |]. simpl. right. apply IH, O.
Qed.

(** Writing [%25] for every [%] loses nothing. *)
Lemma Replace_percent_inj (s1 : string) :
  forall s2 : string,
    strings_ReplaceByte s1 "%"%char "%25" = strings_ReplaceByte s2 "%"%char "%25" ->
    s1 = s2.
Proof.
  induction s1 as [| a s1 IH]; intros [| b s2]; simpl.
  - reflexivity.
  - destruct (Ascii.eqb b "%"%char); discriminate.
  - destruct (Ascii.eqb a "%"%char); discriminate.
  - destruct (Ascii.eqb_spec a "%"%char) as [Ea | Na];
      destruct (Ascii.eqb_spec b "%"%char) as [Eb | Nb]; simpl; intros E.
    + inversion E. subst. f_equal. auto.
    + inversion E. subst b. contradiction.
    + inversion E. subst a. contradiction.
    + inversion E. subst. f_equal. auto.
Qed.

(** *** CanonicalURL *)

(** How [canonicalHost] falls into its three cases. *)
Lemma canonicalHost_cases (host : string) :
  (occurs "%"%char host /\
   canonicalHost host = "[" ++ strings_ReplaceByte host "%"%char "%25" ++ "]")
  \/ (~ occurs "%"%char host /\ occurs ":"%char host /\
      canonicalHost host = "[" ++ host ++ "]")
  \/ (~ occurs "%"%char host /\ ~ occurs ":"%char host /\ canonicalHost host = host).
Proof.
  unfold canonicalHost. cbv zeta.
  pose proof (IndexByte_test host "%"%char) as P.
  destruct (strings_IndexByte host "%"%char >=? 0)%Z.
  - left. split; [apply P; reflexivity | reflexivity].
  - right. assert (NP : ~ occurs "%"%char host) by (intros O; apply P in O; discriminate).
    pose proof (IndexByte_test host ":"%char) as Q. simpl orb.
    destruct (strings_IndexByte host ":"%char >=? 0)%Z.
    + left. repeat split; [exact NP | apply Q; reflexivity].
    + right. repeat split; [exact NP |]. intros O. apply Q in O. discriminate.
Qed.


(** Two hosts are never written the same way. *)
Lemma canonicalHost_inj (h1 h2 : string) :
  canonicalHost h1 = canonicalHost h2 -> h1 = h2.
Proof.
  assert (Bra : forall x y, "[" ++ x ++ "]" = "[" ++ y ++ "]" -> x = y).
  { intros x y E. apply (append_inv_head "[") in E.
    apply append_inv_tail in E. exact E. }
  assert (InBra : forall c x, occurs c x -> occurs c ("[" ++ x ++ "]")).
  { intros c x O. apply occurs_append. right. apply occurs_append. left. exact O. }
  destruct (canonicalHost_cases h1) as [(P1 & E1) | [(NP1 & C1 & E1) | (NP1 & NC1 & E1)]];
    destruct (canonicalHost_cases h2) as [(P2 & E2) | [(NP2 & C2 & E2) | (NP2 & NC2 & E2)]];
    rewrite E1, E2; intros E.
  - apply Replace_percent_inj. apply Bra. exact E.
  - apply Bra in E. exfalso. apply NP2. rewrite <- E. apply Replace_keeps_percent, P1.
  - exfalso. apply NP2. rewrite <- E. apply InBra, Replace_keeps_percent, P1.
  - apply Bra in E. exfalso. apply NP1. rewrite E. apply Replace_keeps_percent, P2.
  - apply Bra. exact E.
  - exfalso. apply NC2. rewrite <- E. apply InBra, C1.
  - exfalso. apply NP1. rewrite E. apply InBra, Replace_keeps_percent, P2.
  - exfalso. apply NC1. rewrite E. apply InBra, C2.
  - exact E.
Qed.

(** For a given scheme and port, [CanonicalURL] gives different URLs for
    different hosts: neither the percent-encoding of zone identifiers nor
    the brackets make two hosts collide. *)
Theorem CanonicalURL_host_inj (scheme h1 h2 port : string) :
  CanonicalURL scheme h1 port = CanonicalURL scheme h2 port -> h1 = h2.
Proof.
  unfold CanonicalURL. cbv zeta.
  destruct ((strlen port =? 0)%Z || String.eqb (defaultPorts scheme) port); intros E;
    apply append_inv_head in E; apply (append_inv_head "://") in E.
  - apply canonicalHost_inj. exact E.
  - apply append_inv_tail in E. apply canonicalHost_inj. exact E.
Qed.


(** Section 8, S6. *)
Example CanonicalURL_zone :
  CanonicalURL "wss" "fe80::1%eth0" "443" = "wss://[fe80::1%25eth0]".
Proof. reflexivity. Qed.

Example CanonicalURL_plain :
  CanonicalURL "http" "example.com" "8080" = "http://example.com:8080".
Proof. reflexivity. Qed.

Lemma CanonicalURL_host_inj_witness : "example.com" = "example.com".
Proof.
  apply (CanonicalURL_host_inj "https" "example.com" "example.com" "8443").
  reflexivity.
Defined.

(** *** HostPort *)

(** A non-empty default hostname is the host reported, whatever the
    listener; without one, the host is the one split off the listener's
    address.  A port is only ever reported when the listener has an
    address that splits, and it is then that address's port. *)
Theorem HostPort_default_host
    (splitHostPort : string -> option (string * string))
    (ln : option (option string)) (dh : option string) :
  let r := HostPort splitHostPort ln dh in
  (forall h, dh = Some h -> h <> EmptyString -> fst r = h)
  /\ (forall a h p,
        (dh = None \/ dh = Some EmptyString) ->
        ln = Some (Some a) -> splitHostPort a = Some (h, p) -> r = (h, p))
  /\ (snd r <> EmptyString ->
      exists a h, ln = Some (Some a) /\ splitHostPort a = Some (h, snd r)).
Proof.
  cbv zeta. unfold HostPort. split; [| split].
  - intros h Ed Hh. subst dh.
    assert (G : (strlen h >? 0)%Z = true).
    { rewrite Z.gtb_ltb. apply Z.ltb_lt.
      destruct h; [contradiction | unfold strlen; simpl String.length; lia]. }
    destruct ln as [[a |] |]; try reflexivity.
    destruct (splitHostPort a) as [[host port] |]; [| reflexivity].
    rewrite G. reflexivity.
  - intros a h p Hd El Es. subst ln. rewrite Es.
    destruct Hd as [Hd | Hd]; subst dh; reflexivity.
  - destruct ln as [[a |] |]; simpl; try (intros C; contradiction C; reflexivity).
    destruct (splitHostPort a) as [[host port] |] eqn:Es; simpl;
      [| intros C; contradiction C; reflexivity].
    intros _. exists a, host. split; [reflexivity | exact Es].
Qed.

(** *** ParseRetryAfter *)

Lemma int64_le_Max (z : Z) : GoInt.int64 z <= GoInt.MaxInt64.
Proof.
  unfold GoInt.int64, GoInt.wrap, GoInt.MaxInt64.
  pose proof (Z.mod_pos_bound (z + 2 ^ (64 - 1)) (2 ^ 64) ltac:(lia)) as B.
  simpl in *. lia.
Qed.

Lemma int64_small (z : Z) :
  GoInt.MinInt64 <= z <= GoInt.MaxInt64 -> GoInt.int64 z = z.
Proof. exact (GoIntFacts.int_small z). Qed.

(** [ParseRetryAfter] reports a wait only when it is positive, and
    reports a zero duration whenever it reports none; the empty header is
    never a wait. *)
Theorem ParseRetryAfter_sound
    (parseInt : string -> option Z) (parseTime : string -> option time_Time)
    (now : time_Time) (header : string) :
  let r := ParseRetryAfter parseInt parseTime now header in
  (snd r = true -> (0 < fst r)%Z /\ header <> EmptyString)
  /\ (snd r = false -> fst r = 0%Z).
Proof.
  cbv zeta. unfold ParseRetryAfter. rewrite WorkerFacts.strlen_eqb_zero.
  destruct (String.eqb_spec header EmptyString) as [E | N]; simpl;
    [split; [discriminate | reflexivity] |].
  assert (Pos : forall d : Z,
            let r := if (d >? 0)%Z then (d, true) else (0%Z, false) in
            (snd r = true -> (0 < fst r)%Z /\ header <> EmptyString)
            /\ (snd r = false -> fst r = 0%Z)).
  { intros d. cbv zeta.
    destruct (Z.gtb_spec d 0); simpl; split; try discriminate; auto. }
  destruct (parseInt header) as [sec |]; [apply Pos |].
  destruct (parseTime header) as [t |]; [apply Pos |].
  simpl. split; [discriminate | reflexivity].
Qed.

(** A header that reads as a whole number of seconds: from 1 to
    9223372036 seconds it is the wait, in nanoseconds; zero and negative
    numbers are no wait; above 9223372036 the [int64] product overflows
    and the answer is never the wait asked for.  The date reading is not
    consulted. *)
Theorem ParseRetryAfter_seconds
    (parseInt : string -> option Z) (parseTime : string -> option time_Time)
    (now : time_Time) (header : string) (sec : Z) :
  header <> EmptyString ->
  parseInt header = Some sec ->
  let r := ParseRetryAfter parseInt parseTime now header in
  ((0 < sec <= 9223372036)%Z -> r = ((sec * 1000000000)%Z, true))
  /\ ((-9223372036 <= sec <= 0)%Z -> r = (0%Z, false))
  /\ ((9223372036 < sec)%Z -> fst r <> (sec * 1000000000)%Z).
Proof.
  intros Hh Hp. cbv zeta. unfold ParseRetryAfter.
  rewrite WorkerFacts.strlen_eqb_zero.
  destruct (String.eqb_spec header EmptyString) as [E | _]; [contradiction |].
  rewrite Hp. unfold time_Second.
  assert (Hmax : GoInt.MaxInt64 = 9223372036854775807%Z) by reflexivity.
  assert (Hmin : GoInt.MinInt64 = (-9223372036854775808)%Z) by reflexivity.
  split; [| split].
  - intros Hs. rewrite int64_small by lia.
    destruct (Z.gtb_spec (sec * 1000000000) 0); [reflexivity | lia].
  - intros Hs. rewrite int64_small by lia.
    destruct (Z.gtb_spec (sec * 1000000000) 0); [lia | reflexivity].
  - intros Hs. pose proof (int64_le_Max (sec * 1000000000)) as B.
    destruct (GoInt.int64 (sec * 1000000000) >? 0)%Z; simpl; lia.
Qed.

Lemma ParseRetryAfter_seconds_witness :
  ParseRetryAfter (fun _ => Some 120%Z) (fun _ => None) 0%Z "120"
  = (120000000000%Z, true).
Proof.
  assert (Hh : "120" <> EmptyString) by discriminate.
  destruct (ParseRetryAfter_seconds (fun _ => Some 120%Z) (fun _ => None) 0%Z
              "120" 120%Z Hh eq_refl) as (A & _).
  apply A. lia.
Defined.

(** A header that reads as a date and not as a number: a date after now
    gives the time until then (at most the largest [Duration]), any other
    date gives no wait; a header that reads as neither gives no wait. *)
Theorem ParseRetryAfter_date
    (parseInt : string -> option Z) (parseTime : string -> option time_Time)
    (now : time_Time) (header : string) :
  header <> EmptyString ->
  parseInt header = None ->
  let r := ParseRetryAfter parseInt parseTime now header in
  (forall t, parseTime header = Some t ->
     ((now < t)%Z -> r = (Z.min (t - now) GoInt.MaxInt64, true))
     /\ ((t <= now)%Z -> r = (0%Z, false)))
  /\ (parseTime header = None -> r = (0%Z, false)).
Proof.
  intros Hh Hp. cbv zeta. unfold ParseRetryAfter.
  rewrite WorkerFacts.strlen_eqb_zero.
  destruct (String.eqb_spec header EmptyString) as [E | _]; [contradiction |].
  rewrite Hp.
  assert (Hmax : GoInt.MaxInt64 = 9223372036854775807%Z) by reflexivity.
  assert (Hmin : GoInt.MinInt64 = (-9223372036854775808)%Z) by reflexivity.
  split.
  - intros t Ht. rewrite Ht. unfold time_Sub. split; intros Hlt.
    + destruct (Z.gtb_spec (t - now) GoInt.MaxInt64) as [G | G].
      * rewrite Z.min_r by lia. rewrite Hmax. reflexivity.
      * destruct (Z.ltb_spec (t - now) GoInt.MinInt64) as [L | L]; [lia |].
        rewrite Z.min_l by lia.
        destruct (Z.gtb_spec (t - now) 0); [reflexivity | lia].
    + destruct (Z.gtb_spec (t - now) GoInt.MaxInt64) as [G | G]; [lia |].
      destruct (Z.ltb_spec (t - now) GoInt.MinInt64) as [L | L].
      * rewrite Hmin. reflexivity.
      * destruct (Z.gtb_spec (t - now) 0); [lia | reflexivity].
  - intros Ht. rewrite Ht. reflexivity.
Qed.

Lemma ParseRetryAfter_date_witness :
  ParseRetryAfter (fun _ => None) (fun _ => Some 7000%Z) 5000%Z "Fri, 31 Dec 1999 23:59:59 GMT"
  = (2000%Z, true).
Proof.
  assert (Hh : "Fri, 31 Dec 1999 23:59:59 GMT" <> EmptyString) by discriminate.
  destruct (ParseRetryAfter_date (fun _ => None) (fun _ => Some 7000%Z) 5000%Z
              "Fri, 31 Dec 1999 23:59:59 GMT" Hh eq_refl) as (A & _).
  destruct (A 7000%Z eq_refl) as (B & _). apply B. lia.
Defined.

(** A wait of 18446744074 seconds comes back as 0.29 seconds. *)
Example ParseRetryAfter_overflow :
  ParseRetryAfter (fun _ => Some 18446744074%Z) (fun _ => None) 0%Z "18446744074"
  = (290448384%Z, true).
Proof. reflexivity. Qed.

End NetUtilFacts.

(** ** The handlers: what they keep *)

Module HandlerFacts.

Import Worker HandlerSpec.

Ltac steady_tac := unfold steady; simpl; repeat split; auto.

Section WithStore.

Context {T : Type} `{StoreOps T}.
Variable X : Externals.

Lemma steady_refl (st : @St T) : steady st st.
Proof. steady_tac. Qed.

Lemma steady_trans (a b c : @St T) : steady a b -> steady b c -> steady a c.
Proof.
  unfold steady.
  intros (A1 & A2 & A3 & A4 & A5 & A6 & A7 & A8 & A9)
         (B1 & B2 & B3 & B4 & B5 & B6 & B7 & B8 & B9).
  repeat split; try congruence.
  - auto.
  - intros Hb. rewrite <- (A2 Hb). apply B2. rewrite (A2 Hb). exact Hb.
Qed.

Lemma steady_Increment (name : string) (st : @St T) :
  steady st (metrics_Increment name st).
Proof. steady_tac. Qed.

Lemma steady_Timer (name : string) (st : @St T) : steady st (metrics_Timer name st).
Proof. steady_tac. Qed.

Lemma steady_Send (f : Frame) (st : @St T) : steady st (snd (Socket_Send f st)).
Proof. steady_tac. Qed.

Lemma steady_set_Store (store : T) (st : @St T) : steady st (set_Store store st).
Proof. steady_tac. Qed.

Lemma steady_set_stopped (st : @St T) : steady st (set_stopped true st).
Proof. steady_tac. Qed.

Lemma steady_countSent (updates : list Update) :
  forall st : @St T, steady st (countSent updates st).
Proof.
  induction updates as [| u rest IH]; intros st; simpl.
  - apply steady_refl.
  - eapply steady_trans; [apply steady_Increment | apply IH].
Qed.

Lemma steady_Flush (lastAccessed : Z) (channel : string) (version : Z) (st : @St T) :
  steady st (snd (Flush lastAccessed channel version st)).
Proof.
  unfold Flush. cbv zeta. cbn [snd].
  eapply steady_trans; [| apply steady_Timer].
  destruct (String.eqb (Uaid (sock st)) EmptyString).
  - apply steady_set_stopped.
  - destruct (strlen channel =? 0).
    + destruct (Store_FetchAll (Store (sock st)) (Uaid (sock st))
                  (time_Unix lastAccessed 0)) as [[updates expired] [err |]].
      * apply steady_refl.
      * destruct ((len updates >? 0) || (len expired >? 0)).
        -- destruct (strlen channel >? 0).
           ++ eapply steady_trans; [apply steady_countSent |].
              destruct (Socket_Send _ (countSent updates st)) as [e st2] eqn:E.
              change st2 with (snd (e, st2)). rewrite <- E. apply steady_Send.
           ++ destruct (Socket_Send _ st) as [e st2] eqn:E.
              change st2 with (snd (e, st2)). rewrite <- E. apply steady_Send.
        -- apply steady_refl.
    + destruct (strlen channel >? 0).
      * eapply steady_trans; [apply steady_countSent |].
        destruct (Socket_Send _ (countSent _ st)) as [e st2] eqn:E.
        change st2 with (snd (e, st2)). rewrite <- E. apply steady_Send.
      * destruct (Socket_Send _ st) as [e st2] eqn:E.
        change st2 with (snd (e, st2)). rewrite <- E. apply steady_Send.
Qed.

Lemma steady_dropEach (chids : list string) :
  forall st : @St T, steady st (snd (dropEach chids st)).
Proof.
  induction chids as [| ch rest IH]; intros st; simpl.
  - apply steady_refl.
  - destruct (Store_Drop (Uaid (sock st)) ch (Store (sock st))) as [[err |] store].
    + apply steady_set_Store.
    + eapply steady_trans; [apply steady_set_Store | apply IH].
Qed.

Lemma steady_Purge (header : RequestHeader) (message : list byte) (st : @St T) :
  steady st (snd (Purge header message st)).
Proof. steady_tac. Qed.

Lemma steady_Ping (header : RequestHeader) (message : list byte) (st : @St T) :
  steady st (snd (Ping header message st)).
Proof.
  unfold Ping. cbv zeta.
  destruct ((pingInt (self st) >? 0) && negb (time_IsZero (lastPing (self st)))
            && (time_Sub (clock st) (lastPing (self st)) <? pingInt (self st))).
  - steady_tac.
  - destruct (pushLongPongs (app (self (set_lastPing (clock st) st)))); steady_tac.
Qed.

Lemma steady_Unregister (header : RequestHeader) (message : list byte) (st : @St T) :
  steady st (snd (Unregister X header message st)).
Proof.
  unfold Unregister.
  destruct (String.eqb (Uaid (sock st)) EmptyString); [apply steady_refl |].
  destruct (json_Unmarshal_Unregister X message) as [request |]; [| apply steady_refl].
  destruct (strlen (unreg_ChannelID request) =? 0); [apply steady_refl |].
  destruct (Store_Unregister _ _ _) as [e store]. steady_tac.
Qed.

Lemma steady_Register (header : RequestHeader) (message : list byte) (st : @St T) :
  steady st (snd (Register X header message st)).
Proof.
  unfold Register.
  destruct (String.eqb (Uaid (sock st)) EmptyString); [apply steady_refl |].
  destruct (json_Unmarshal_Register X message) as [request |]; [| apply steady_refl].
  destruct (negb (id_Valid X (reg_ChannelID request))); [apply steady_refl |].
  destruct (Store_Register _ _ _ _) as [[e |] store]; [steady_tac |].
  cbv zeta. destruct (HandleCommand X _ _) as [status args]. steady_tac.
Qed.

Lemma steady_Ack (header : RequestHeader) (message : list byte) (st : @St T) :
  steady st (snd (Ack X header message st)).
Proof.
  unfold Ack.
  destruct (String.eqb (Uaid (sock st)) EmptyString); [apply steady_refl |].
  destruct (json_Unmarshal_ACK X message) as [request |]; [| apply steady_refl].
  destruct (len (Updates request) =? 0); [apply steady_refl |].
  cbv zeta.
  pose proof (steady_dropEach (map ChannelID (Updates request))
                (metrics_Increment "updates.client.ack" st)) as D1.
  destruct (dropEach (map ChannelID (Updates request)) _) as [[e |] st2];
    simpl in D1.
  - eapply steady_trans; [apply steady_Increment | exact D1].
  - pose proof (steady_dropEach (Expired request) st2) as D2.
    destruct (dropEach (Expired request) st2) as [[e |] st3]; simpl in D2.
    + eapply steady_trans; [apply steady_Increment |].
      eapply steady_trans; [exact D1 | exact D2].
    + eapply steady_trans; [apply steady_Increment |].
      eapply steady_trans; [exact D1 |].
      eapply steady_trans; [exact D2 | apply steady_Flush].
Qed.

(** [Hello] reaches [registerDevice] with a reset only on a connection
    that has no device id. *)
Lemma Hello_decide_steady (message : list byte) (st st1 : @St T)
    (forceReset : bool) (request : HelloRequest) (chids : list JSON) :
  Hello_decide X message st = inr (forceReset, request, chids, st1) ->
  steady st st1
  /\ (forceReset = true -> Uaid (sock st1) = EmptyString)
  /\ generated st1 = generated st
  /\ commands st1 = commands st
  /\ Socket (sock st1) = Socket (sock st).
Proof.
  unfold Hello_decide.
  destruct (json_Unmarshal_Hello X message) as [req |]; [| discriminate].
  destruct (DeviceID req) as [suggested |]; [| discriminate].
  destruct (ChannelIDs req) as [cs |]; [| discriminate].
  rewrite WorkerFacts.strlen_eqb_zero.
  destruct (Z.gtb_spec (strlen (Uaid (sock st))) 0) as [B | U].
  - destruct (String.eqb suggested EmptyString || String.eqb (Uaid (sock st)) suggested);
      [| discriminate].
    intros E. inversion E; subst; clear E.
    split; [apply steady_refl |]. repeat split. discriminate.
  - assert (HU : Uaid (sock st) = EmptyString).
    { apply WorkerFacts.strlen_zero. unfold strlen in *. lia. }
    destruct (String.eqb suggested EmptyString).
    + intros E. inversion E; subst; clear E.
      split; [apply steady_refl |]. repeat split. auto.
    + destruct (negb (id_Valid X suggested)); [discriminate |].
      destruct (ClientExists (app (self st)) suggested).
      * intros E. inversion E; subst; clear E.
        split; [apply steady_refl |]. repeat split. auto.
      * destruct (len cs >? maxChannels (self st)).
        -- destruct (Store_DropAll suggested (Store (sock st))) as [e store].
           intros E. inversion E; subst; clear E.
           split; [apply steady_set_Store |]. repeat split. auto.
        -- destruct (negb (Store_Exists (Store (sock st)) (Uaid (sock st)))
                     && (len cs >? 0)).
           ++ intros E. inversion E; subst; clear E.
              split; [apply steady_refl |]. repeat split. auto.
           ++ intros E. inversion E; subst; clear E.
              split; [| repeat split; discriminate].
              unfold steady. simpl. repeat split; auto.
              intros C. contradiction.
Qed.

(** What [Flush] never touches. *)
Lemma Flush_keeps (lastAccessed : Z) (channel : string) (version : Z) (st : @St T) :
  let st' := snd (Flush lastAccessed channel version st) in
  Store (sock st') = Store (sock st)
  /\ generated st' = generated st
  /\ lastPing (self st') = lastPing (self st).
Proof.
  unfold Flush. cbv zeta.
  destruct (String.eqb (Uaid (sock st)) EmptyString).
  - simpl. repeat split.
  - set (fetched := if strlen channel =? 0 then _ else _).
    destruct fetched as [err | [updates [reply |]]]; simpl.
    + repeat split.
    + destruct (strlen channel >? 0).
      * destruct (WorkerFacts.countSent_frame updates st) as (A & B & C & D).
        unfold Socket_Send, WebSocket_Send. simpl. rewrite A, B, D. repeat split.
      * unfold Socket_Send, WebSocket_Send. simpl. repeat split.
    + repeat split.
Qed.

(** A [Flush] that returns an error has sent nothing. *)
Lemma Flush_error_silent (lastAccessed : Z) (channel : string) (version : Z)
    (st : @St T) (e : error) :
  fst (Flush lastAccessed channel version st) = Some e ->
  sock (snd (Flush lastAccessed channel version st)) = sock st
  /\ commands (snd (Flush lastAccessed channel version st)) = commands st.
Proof.
  unfold Flush. cbv zeta.
  destruct (String.eqb (Uaid (sock st)) EmptyString); [simpl; discriminate |].
  set (fetched := if strlen channel =? 0 then _ else _).
  destruct fetched as [err | [updates [reply |]]]; simpl.
  - intros _. split; reflexivity.
  - destruct (strlen channel >? 0); unfold Socket_Send, WebSocket_Send; simpl;
      discriminate.
  - discriminate.
Qed.

Lemma dropEach_keeps (chids : list string) :
  forall st : @St T,
    Socket (sock (snd (dropEach chids st))) = Socket (sock st)
    /\ Uaid (sock (snd (dropEach chids st))) = Uaid (sock st)
    /\ commands (snd (dropEach chids st)) = commands st
    /\ metrics (snd (dropEach chids st)) = metrics st.
Proof.
  induction chids as [| ch rest IH]; intros st; simpl.
  - repeat split.
  - destruct (Store_Drop (Uaid (sock st)) ch (Store (sock st))) as [[err |] store].
    + repeat split.
    + destruct (IH (set_Store store st)) as (A & B & C & D).
      rewrite A, B, C, D. repeat split.
Qed.

(** The two loops of [Ack], one after the other, are one loop over the
    update channels followed by the expired ones. *)
Lemma dropEach_app (a b : list string) :
  forall st : @St T,
    dropEach (a ++ b) st
    = match dropEach a st with
      | (Some err, st1) => (Some err, st1)
      | (None, st1) => dropEach b st1
      end.
Proof.
  induction a as [| ch rest IH]; intros st; simpl.
  - reflexivity.
  - destruct (Store_Drop (Uaid (sock st)) ch (Store (sock st))) as [[err |] store];
      [reflexivity | apply IH].
Qed.

(** What [Hello] does from [registerDevice] on. *)
Lemma registerDevice_effects (forceReset : bool) (header : RequestHeader)
    (request : HelloRequest) (chids : list JSON) (st1 : @St T) :
  let uaid := if forceReset then fst (id_Generate X (generated st1))
              else Uaid (sock st1) in
  let cmd := HELLO (id (self st1)) uaid chids (PingData request) in
  let reply := Bytes (sprintf_hello (Type_ header) (fst (HandleCommand X cmd uaid)) uaid) in
  let r := Hello_registerDevice X forceReset header request chids st1 in
  Uaid (sock (snd r)) = uaid
  /\ commands (snd r) = commands st1 ++ [cmd]
  /\ (exists extra,
        outbox (Socket (sock (snd r))) = outbox (Socket (sock st1)) ++ reply :: extra)
  /\ state (self (snd r)) = WorkerActive
  /\ Store (sock (snd r)) = Store (sock st1)
  /\ generated (snd r) = (if forceReset then S (generated st1) else generated st1)
  /\ (stopped (self st1) = true -> stopped (self (snd r)) = true)
  /\ (forall werr, transport (Socket (sock st1)) = Some werr -> fst r = Some werr).
Proof.
  cbv zeta. unfold Hello_registerDevice.
  set (st2 := if forceReset then _ else st1).
  assert (E2 : Uaid (sock st2)
               = (if forceReset then fst (id_Generate X (generated st1))
                  else Uaid (sock st1))
               /\ id (self st2) = id (self st1)
               /\ commands st2 = commands st1
               /\ Socket (sock st2) = Socket (sock st1)
               /\ Store (sock st2) = Store (sock st1)
               /\ generated st2 = (if forceReset then S (generated st1) else generated st1)
               /\ stopped (self st2) = stopped (self st1)).
  { subst st2. destruct forceReset; [| repeat split].
    destruct (id_Generate X (generated st1)) as [u ge]. simpl. repeat split. }
  destruct E2 as (U2 & I2 & C2 & S2 & T2 & G2 & P2).
  rewrite <- U2. rewrite I2.
  destruct (HandleCommand X (HELLO (id (self st1)) (Uaid (sock st2)) chids
                               (PingData request)) (Uaid (sock st2)))
    as [status args] eqn:HC.
  cbv zeta. unfold Socket_Send, WebSocket_Send. cbn [fst].
  cbn -[Flush sprintf_hello]. rewrite S2.
  destruct (transport (Socket (sock st1))) as [werr |] eqn:TR.
  - cbn -[sprintf_hello]. rewrite ?C2, ?T2, ?G2, ?P2.
    repeat split; try discriminate; auto;
      try (exists []; reflexivity);
      try (intros w E; inversion E; reflexivity).
  - match goal with
    | |- context [Flush 0 EmptyString 0 ?s] => remember s as st5 eqn:E5
    end.
    destruct (WorkerFacts.Flush_frame 0 EmptyString 0 st5) as (A & B & C & (extra & D)).
    destruct (Flush_keeps 0 EmptyString 0 st5) as (K1 & K2 & _).
    pose proof (steady_Flush 0 EmptyString 0 st5) as (L & _).
    cbv zeta in A, B, C, D, K1, K2.
    assert (Lst : stopped (self st1) = true ->
                  stopped (self (snd (Flush 0 EmptyString 0 st5))) = true).
    { intros Hs. apply L. rewrite E5. cbn. rewrite P2. exact Hs. }
    rewrite A, B, C, D, K1, K2.
    repeat split; try exact Lst; try discriminate;
      try (subst st5; cbn -[sprintf_hello]; rewrite ?C2, ?T2, ?G2; reflexivity).
    exists extra. subst st5. cbn -[sprintf_hello]. rewrite <- app_assoc. reflexivity.
Qed.

Lemma steady_Hello (header : RequestHeader) (message : list byte) (st : @St T) :
  steady st (snd (Hello X header message st)).
Proof.
  unfold Hello.
  destruct (Hello_decide X message st) as [err | [[[fr request] chids] st1]] eqn:D;
    [apply steady_refl |].
  destruct (Hello_decide_steady message st st1 fr request chids D)
    as (S1 & Hfr & _).
  eapply steady_trans; [exact S1 |].
  unfold Hello_registerDevice.
  set (st2 := if fr then _ else st1).
  assert (S2 : steady st1 st2).
  { subst st2. destruct fr; [| apply steady_refl].
    destruct (id_Generate X (generated st1)) as [u ge].
    unfold steady. simpl. repeat split; auto.
    intros C. rewrite (Hfr eq_refl) in C. contradiction. }
  eapply steady_trans; [exact S2 |].
  destruct (HandleCommand X _ _) as [status args]. cbv zeta.
  destruct (Socket_Send _ _) as [err st3] eqn:E3.
  assert (S3 : steady st2 st3).
  { change st3 with (snd (err, st3)). rewrite <- E3. unfold steady. simpl.
    repeat split; auto. }
  eapply steady_trans; [exact S3 |].
  destruct err as [e |].
  - steady_tac.
  - eapply steady_trans; [| apply steady_Flush]. steady_tac.
Qed.

(** *** Stopped flag, device id, configuration *)

(** No handler clears a set [stopped] flag, none replaces a device id
    once one is bound, and none changes the worker's configuration
    ([app], [id], [maxChannels], [pingInt], [helloTimeout]). *)
Theorem handlers_steady (header : RequestHeader) (message : list byte)
    (lastAccessed : Z) (channel : string) (version : Z) (st : @St T) :
  steady st (snd (Hello X header message st))
  /\ steady st (snd (Ack X header message st))
  /\ steady st (snd (Register X header message st))
  /\ steady st (snd (Unregister X header message st))
  /\ steady st (snd (Ping header message st))
  /\ steady st (snd (Purge header message st))
  /\ steady st (snd (Flush lastAccessed channel version st)).
Proof.
  split; [apply steady_Hello |]. split; [apply steady_Ack |].
  split; [apply steady_Register |]. split; [apply steady_Unregister |].
  split; [apply steady_Ping |]. split; [apply steady_Purge | apply steady_Flush].
Qed.

(** *** Failed commands *)

(** [Register], [Unregister], [Ack] and [Ping], when they return an
    error, have sent nothing on the socket and given the router
    nothing. *)
Theorem failed_command_sends_nothing
    (header : RequestHeader) (message : list byte) (st : @St T) (e : error) :
  (fst (Register X header message st) = Some e ->
   Socket (sock (snd (Register X header message st))) = Socket (sock st)
   /\ commands (snd (Register X header message st)) = commands st)
  /\ (fst (Unregister X header message st) = Some e ->
      Socket (sock (snd (Unregister X header message st))) = Socket (sock st)
      /\ commands (snd (Unregister X header message st)) = commands st)
  /\ (fst (Ack X header message st) = Some e ->
      Socket (sock (snd (Ack X header message st))) = Socket (sock st)
      /\ commands (snd (Ack X header message st)) = commands st)
  /\ (fst (Ping header message st) = Some e ->
      Socket (sock (snd (Ping header message st))) = Socket (sock st)
      /\ commands (snd (Ping header message st)) = commands st).
Proof.
  split; [| split; [| split]].
  - unfold Register.
    destruct (String.eqb (Uaid (sock st)) EmptyString); [split; reflexivity |].
    destruct (json_Unmarshal_Register X message) as [request |]; [| split; reflexivity].
    destruct (negb (id_Valid X (reg_ChannelID request))); [split; reflexivity |].
    destruct (Store_Register _ _ _ _) as [[e1 |] store]; [split; reflexivity |].
    cbv zeta. destruct (HandleCommand X _ _) as [status args]. simpl. discriminate.
  - unfold Unregister.
    destruct (String.eqb (Uaid (sock st)) EmptyString); [split; reflexivity |].
    destruct (json_Unmarshal_Unregister X message) as [request |]; [| split; reflexivity].
    destruct (strlen (unreg_ChannelID request) =? 0); [split; reflexivity |].
    destruct (Store_Unregister _ _ _) as [e1 store]. simpl. discriminate.
  - unfold Ack.
    destruct (String.eqb (Uaid (sock st)) EmptyString); [split; reflexivity |].
    destruct (json_Unmarshal_ACK X message) as [request |]; [| split; reflexivity].
    destruct (len (Updates request) =? 0); [split; reflexivity |].
    cbv zeta.
    destruct (dropEach_keeps (map ChannelID (Updates request))
                (metrics_Increment "updates.client.ack" st)) as (A1 & _ & C1 & _).
    destruct (dropEach (map ChannelID (Updates request)) _) as [[e1 |] st2];
      simpl in A1, C1.
    + intros _. split; [exact A1 | exact C1].
    + destruct (dropEach_keeps (Expired request) st2) as (A2 & _ & C2 & _).
      destruct (dropEach (Expired request) st2) as [[e2 |] st3]; simpl in A2, C2.
      * intros _. cbn [snd]. split; congruence.
      * intros F. destruct (Flush_error_silent 0 EmptyString 0 st3 e F) as (S & C).
        rewrite S, C. split; congruence.
  - unfold Ping. cbv zeta.
    destruct ((pingInt (self st) >? 0) && negb (time_IsZero (lastPing (self st)))
              && (time_Sub (clock st) (lastPing (self st)) <? pingInt (self st))).
    + intros _. split; reflexivity.
    + destruct (pushLongPongs (app (self (set_lastPing (clock st) st)))); simpl;
        discriminate.
Qed.

(** *** Hello *)

Lemma strlen_pos_test (s : string) :
  (strlen s >? 0) = negb (String.eqb s EmptyString).
Proof.
  rewrite <- WorkerFacts.strlen_eqb_zero. unfold strlen.
  destruct (Z.gtb_spec (Z.of_nat (String.length s)) 0);
    destruct (Z.eqb_spec (Z.of_nat (String.length s)) 0); simpl; try reflexivity; lia.
Qed.

(** A second handshake.  On a connection that has a device id, a [hello]
    with the empty id or with that same id keeps the id: no id is
    generated, the router is told the bound id and the reply carries it.
    A [hello] with another id fails with [ErrExistingID] and changes
    nothing. *)
Theorem Hello_again
    (header : RequestHeader) (message : list byte) (st : @St T)
    (request : HelloRequest) (u : string) (chids : list JSON) :
  Uaid (sock st) <> EmptyString ->
  json_Unmarshal_Hello X message = Some request ->
  DeviceID request = Some u ->
  ChannelIDs request = Some chids ->
  let r := Hello X header message st in
  let bound := Uaid (sock st) in
  let cmd := HELLO (id (self st)) bound chids (PingData request) in
  let reply := Bytes (sprintf_hello (Type_ header) (fst (HandleCommand X cmd bound)) bound) in
  (u = EmptyString \/ u = bound ->
   Uaid (sock (snd r)) = bound
   /\ generated (snd r) = generated st
   /\ Store (sock (snd r)) = Store (sock st)
   /\ commands (snd r) = commands st ++ [cmd]
   /\ exists extra,
        outbox (Socket (sock (snd r))) = outbox (Socket (sock st)) ++ reply :: extra)
  /\ (u <> EmptyString -> u <> bound -> r = (Some ErrExistingID, st)).
Proof.
  intros Hb Hj Hd Hc. cbv zeta. unfold Hello, Hello_decide.
  rewrite Hj, Hd, Hc, strlen_pos_test, WorkerFacts.strlen_eqb_zero.
  destruct (String.eqb_spec (Uaid (sock st)) EmptyString) as [E | _]; [contradiction |].
  simpl negb. cbv iota. split.
  - intros Hu.
    assert (G : String.eqb u EmptyString || String.eqb (Uaid (sock st)) u = true).
    { destruct Hu as [Hu | Hu]; subst u.
      - reflexivity.
      - rewrite String.eqb_refl. apply orb_true_r. }
    rewrite G.
    destruct (registerDevice_effects false header request chids st)
      as (A & B & Cx & _ & S & G2 & _).
    cbv zeta in A, B, Cx, S, G2. repeat split; assumption.
  - intros Hn Hm.
    destruct (String.eqb_spec u EmptyString) as [E | _]; [contradiction |].
    destruct (String.eqb_spec (Uaid (sock st)) u) as [E | _];
      [symmetry in E; contradiction | reflexivity].
Qed.

(** The first handshake, resets.  On a connection without a device id a
    [hello] gets a generated id, and the router is told that id, when the
    suggested id is empty, when a client of this process already has it,
    or when it comes with more than [maxChannels] channels; in that last
    case the store is first told to drop all records of the suggested id.
    A suggested id that is not well-formed fails with [ErrInvalidID] and
    changes nothing. *)
Theorem Hello_forced_reset
    (header : RequestHeader) (message : list byte) (st : @St T)
    (request : HelloRequest) (u : string) (chids : list JSON) :
  Uaid (sock st) = EmptyString ->
  json_Unmarshal_Hello X message = Some request ->
  DeviceID request = Some u ->
  ChannelIDs request = Some chids ->
  let r := Hello X header message st in
  let fresh := fst (id_Generate X (generated st)) in
  let reset (store : T) :=
    Uaid (sock (snd r)) = fresh
    /\ generated (snd r) = S (generated st)
    /\ Store (sock (snd r)) = store
    /\ commands (snd r)
       = commands st ++ [HELLO (id (self st)) fresh chids (PingData request)] in
  (u = EmptyString -> reset (Store (sock st)))
  /\ (u <> EmptyString -> id_Valid X u = false -> r = (Some ErrInvalidID, st))
  /\ (u <> EmptyString -> id_Valid X u = true ->
      ClientExists (app (self st)) u = true -> reset (Store (sock st)))
  /\ (u <> EmptyString -> id_Valid X u = true ->
      ClientExists (app (self st)) u = false ->
      len chids > maxChannels (self st) ->
      reset (snd (Store_DropAll u (Store (sock st))))).
Proof.
  intros Hb Hj Hd Hc. cbv zeta. unfold Hello, Hello_decide.
  rewrite Hj, Hd, Hc, strlen_pos_test, WorkerFacts.strlen_eqb_zero, Hb.
  simpl negb. cbv iota.
  split; [| split; [| split]].
  - intros Hu. subst u. simpl String.eqb. cbv iota.
    destruct (registerDevice_effects true header request chids st)
      as (A & B & _ & _ & S & G2 & _).
    cbv zeta in A, B, S, G2. repeat split; assumption.
  - intros Hn Hv.
    destruct (String.eqb_spec u EmptyString) as [E | _]; [contradiction |].
    rewrite Hv. reflexivity.
  - intros Hn Hv Hx.
    destruct (String.eqb_spec u EmptyString) as [E | _]; [contradiction |].
    rewrite Hv, Hx. simpl negb. cbv iota.
    destruct (registerDevice_effects true header request chids st)
      as (A & B & _ & _ & S & G2 & _).
    cbv zeta in A, B, S, G2. repeat split; assumption.
  - intros Hn Hv Hx Hm.
    destruct (String.eqb_spec u EmptyString) as [E | _]; [contradiction |].
    rewrite Hv, Hx. simpl negb. cbv iota.
    destruct (Z.gtb_spec (len chids) (maxChannels (self st))) as [_ | L]; [| lia].
    destruct (Store_DropAll u (Store (sock st))) as [e store]. cbn [snd].
    destruct (registerDevice_effects true header request chids (set_Store store st))
      as (A & B & _ & _ & S & G2 & _).
    cbv zeta in A, B, S, G2. repeat split; assumption.
Qed.

(** The first handshake, accepted.  On a connection without a device id,
    a well-formed suggested id that no client of this process has, with no
    more than [maxChannels] channels, is bound as it is, without any id
    being generated, when the channel list is empty or the store answers
    [Exists] for the connection's (empty) id. *)
Theorem Hello_accepts
    (header : RequestHeader) (message : list byte) (st : @St T)
    (request : HelloRequest) (u : string) (chids : list JSON) :
  Uaid (sock st) = EmptyString ->
  json_Unmarshal_Hello X message = Some request ->
  DeviceID request = Some u ->
  ChannelIDs request = Some chids ->
  u <> EmptyString ->
  id_Valid X u = true ->
  ClientExists (app (self st)) u = false ->
  len chids <= maxChannels (self st) ->
  chids = [] \/ Store_Exists (Store (sock st)) EmptyString = true ->
  let r := Hello X header message st in
  let cmd := HELLO (id (self st)) u chids (PingData request) in
  let reply := Bytes (sprintf_hello (Type_ header) (fst (HandleCommand X cmd u)) u) in
  Uaid (sock (snd r)) = u
  /\ generated (snd r) = generated st
  /\ Store (sock (snd r)) = Store (sock st)
  /\ commands (snd r) = commands st ++ [cmd]
  /\ exists extra,
       outbox (Socket (sock (snd r))) = outbox (Socket (sock st)) ++ reply :: extra.
Proof.
  intros Hb Hj Hd Hc Hn Hv Hx Hm Hg. cbv zeta. unfold Hello, Hello_decide.
  rewrite Hj, Hd, Hc, strlen_pos_test, WorkerFacts.strlen_eqb_zero, Hb.
  simpl negb. cbv iota.
  destruct (String.eqb_spec u EmptyString) as [E | _]; [contradiction |].
  rewrite Hv, Hx. simpl negb. cbv iota.
  destruct (Z.gtb_spec (len chids) (maxChannels (self st))) as [G | _]; [lia |].
  assert (Gate : negb (Store_Exists (Store (sock st)) EmptyString) && (len chids >? 0)
                 = false).
  { destruct Hg as [Hg | Hg]; [subst chids; apply andb_false_r | rewrite Hg; reflexivity]. }
  rewrite Gate.
  destruct (registerDevice_effects false header request chids (set_Uaid u st))
    as (A & B & Cx & _ & S & G2 & _).
  cbv zeta in A, B, Cx, S, G2. repeat split; assumption.
Qed.

(** *** Flush *)



(** A targeted flush (a channel is given) on a connection with a device
    id never asks the store: it sends one [notification] frame with the
    single update (channel, version as [uint64]) and no expired channels,
    counts one [updates.sent], and reports success. *)
Theorem Flush_targeted (lastAccessed version : Z) (channel : string) (st : @St T) :
  Uaid (sock st) <> EmptyString ->
  channel <> EmptyString ->
  let r := Flush lastAccessed channel version st in
  fst r = None
  /\ outbox (Socket (sock (snd r)))
     = outbox (Socket (sock st))
       ++ [FlushReply "notification" [mkUpdate channel (version mod 2 ^ 64)] []]
  /\ metrics (snd r)
     = metrics st ++ [Increment "updates.sent"; Timer "client.flush"]
  /\ Store (sock (snd r)) = Store (sock st)
  /\ stopped (self (snd r)) = stopped (self st).
Proof.
  intros Hb Hc. cbv zeta. unfold Flush. cbv zeta.
  rewrite strlen_pos_test, WorkerFacts.strlen_eqb_zero.
  destruct (String.eqb_spec (Uaid (sock st)) EmptyString) as [E | _]; [contradiction |].
  destruct (String.eqb_spec channel EmptyString) as [E | _]; [contradiction |].
  simpl. rewrite <- app_assoc. repeat split.
Qed.

(** *** Ack *)


(** [dropEach] on a store: every channel up to the first refused drop has
    been handed to [Store.Drop], none after it. *)
Lemma dropEach_stops (pre post : list string) (ch : string) :
  forall (st : @St T) (st1 : @St T) (e : error) (store : T),
    dropEach pre st = (None, st1) ->
    Store_Drop (Uaid (sock st1)) ch (Store (sock st1)) = (Some e, store) ->
    dropEach (pre ++ ch :: post) st = (Some e, set_Store store st1).
Proof.
  intros st st1 e store Hpre Hch. rewrite dropEach_app, Hpre. simpl.
  rewrite Hch. reflexivity.
Qed.

(** *** Register *)

(** [register] on a connection with a device id.  A channel id that is
    not well-formed fails with [ErrInvalidParams] before the store is
    touched.  Otherwise the store registers the channel at version 0: its
    error, if any, is returned, and then the router is not asked and
    nothing is sent; on success the router gets one [REGIS] command for
    the channel and the client one reply with status 200, the bound id,
    the channel and the router's endpoint. *)
Theorem Register_outcomes
    (header : RequestHeader) (message : list byte) (st : @St T)
    (request : RegisterRequest) :
  Uaid (sock st) <> EmptyString ->
  json_Unmarshal_Register X message = Some request ->
  let r := Register X header message st in
  let uaid := Uaid (sock st) in
  let chid := reg_ChannelID request in
  (id_Valid X chid = false -> r = (Some ErrInvalidParams, st))
  /\ (id_Valid X chid = true ->
      forall err store,
        Store_Register uaid chid 0 (Store (sock st)) = (err, store) ->
        Store (sock (snd r)) = store
        /\ match err with
           | Some e =>
               fst r = Some e
               /\ commands (snd r) = commands st
               /\ outbox (Socket (sock (snd r))) = outbox (Socket (sock st))
           | None =>
               fst r = None
               /\ commands (snd r) = commands st ++ [REGIS chid]
               /\ outbox (Socket (sock (snd r)))
                  = outbox (Socket (sock st))
                    ++ [RegisterReply (Type_ header) uaid 200 chid
                          (endpointOf (snd (HandleCommand X (REGIS chid) uaid)))]
           end).
Proof.
  intros Hb Hj. cbv zeta. unfold Register.
  destruct (String.eqb_spec (Uaid (sock st)) EmptyString) as [E | _]; [contradiction |].
  rewrite Hj. split.
  - intros Hv. rewrite Hv. reflexivity.
  - intros Hv err store Hs. rewrite Hv, Hs. simpl negb. cbv iota.
    destruct err as [e |]; [simpl; repeat split |].
    cbv zeta. simpl (Uaid (sock (set_Store store st))).
    destruct (HandleCommand X (REGIS (reg_ChannelID request)) (Uaid (sock st)))
      as [status args].
    simpl. repeat split.
Qed.

(** *** Ping *)


End WithStore.

End HandlerFacts.

(** ** The receive loop *)

Module SniffingFacts.

Import Worker HandlerSpec Sniffing.

Lemma len_nonpos_test {A : Type} (l : list A) :
  (len l <=? 0) = match l with [] => true | _ :: _ => false end.
Proof.
  unfold len. destruct l; simpl List.length; [reflexivity |].
  apply Z.leb_gt. lia.
Qed.

(** *** The error envelope *)

Lemma JsMap_get_filter (m : JsMap) (key other : string) :
  other <> key ->
  JsMap_get (filter (fun kv => negb (String.eqb (fst kv) key)) m) other
  = JsMap_get m other.
Proof.
  intros Hne. induction m as [| [k v] rest IH]; simpl; [reflexivity |].
  destruct (String.eqb_spec k key) as [E | N]; simpl.
  - subst k. destruct (String.eqb_spec key other) as [E2 | _];
      [symmetry in E2; contradiction | exact IH].
  - destruct (String.eqb k other); [reflexivity | exact IH].
Qed.

Lemma JsMap_get_set_same (m : JsMap) (key : string) (v : JSON) :
  JsMap_get (JsMap_set m key v) key = Some v.
Proof. unfold JsMap_set. simpl. rewrite String.eqb_refl. reflexivity. Qed.

Lemma JsMap_get_set_other (m : JsMap) (key other : string) (v : JSON) :
  other <> key -> JsMap_get (JsMap_set m key v) other = JsMap_get m other.
Proof.
  intros Hne. unfold JsMap_set. simpl.
  destruct (String.eqb_spec key other) as [E | _]; [symmetry in E; contradiction |].
  apply JsMap_get_filter. exact Hne.
Qed.

Section WithStore.

Context {T : Type} `{StoreOps T}.
Variable X : Externals.
Variable C : Codec.

(** [handleError] answers with the client's own object, its [status] and
    [error] fields set from the error and every other field as the client
    sent it, in one frame.  A message that does not decode to an object is
    not answered at all, and one that decodes to the nil map makes
    [handleError] panic before anything is sent. *)
Theorem handleError_envelope (message : list byte) (err : error) (st : @St T) :
  (forall reply,
     json_Unmarshal_Map C message = inl (Some reply) ->
     handleError C message err st
     = Done (transport (Socket (sock st)),
             set_Socket (mkWebSocket
                           (outbox (Socket (sock st))
                            ++ [Bytes (json_Marshal_Map C (envelope C reply err))])
                           (transport (Socket (sock st)))) st)
     /\ JsMap_get (envelope C reply err) "status"
        = Some (JNumber (fst (ErrToStatus C err)))
     /\ JsMap_get (envelope C reply err) "error"
        = Some (JString (snd (ErrToStatus C err)))
     /\ forall key, key <> "status"%string -> key <> "error"%string ->
          JsMap_get (envelope C reply err) key = JsMap_get reply key)
  /\ (forall ret, json_Unmarshal_Map C message = inr ret ->
        handleError C message err st = Done (Some ret, st))
  /\ (json_Unmarshal_Map C message = inl None ->
      handleError C message err st = Panic).
Proof.
  unfold handleError. split; [| split].
  - intros reply E. rewrite E. split; [reflexivity |].
    unfold envelope. destruct (ErrToStatus C err) as [status text]. simpl fst. simpl snd.
    split; [| split].
    + rewrite JsMap_get_set_other by discriminate. apply JsMap_get_set_same.
    + apply JsMap_get_set_same.
    + intros key H1 H2. rewrite !JsMap_get_set_other by assumption. reflexivity.
  - intros ret E. rewrite E. reflexivity.
  - intros E. rewrite E. reflexivity.
Qed.

(** *** What the loop keeps *)

Lemma steady_failWith (raw : list byte) (err : error) (st : @St T) :
  steady st (Exit_state (failWith C raw err st)).
Proof.
  unfold failWith, handleError.
  destruct (json_Unmarshal_Map C raw) as [[reply |] | ret]; simpl;
    unfold steady; simpl; repeat split; auto.
Qed.

Lemma steady_afterHandler (raw : list byte) (st : @St T) (r : option error * @St T) :
  steady st (snd r) -> steady st (Exit_state (afterHandler C raw r)).
Proof.
  destruct r as [[err |] st1]; simpl; intros S; [| exact S].
  eapply HandlerFacts.steady_trans; [exact S | apply steady_failWith].
Qed.

Lemma steady_dispatch (header : RequestHeader) (raw : list byte) (st : @St T) :
  steady st (snd (dispatch X C header raw st)).
Proof.
  unfold dispatch. cbv zeta.
  destruct (String.eqb _ "ping"); [apply HandlerFacts.steady_Ping |].
  destruct (String.eqb _ "hello"); [apply HandlerFacts.steady_Hello |].
  destruct (String.eqb _ "ack"); [apply HandlerFacts.steady_Ack |].
  destruct (String.eqb _ "register"); [apply HandlerFacts.steady_Register |].
  destruct (String.eqb _ "unregister"); [apply HandlerFacts.steady_Unregister |].
  destruct (String.eqb _ "purge"); [apply HandlerFacts.steady_Purge |].
  apply HandlerFacts.steady_refl.
Qed.

Lemma steady_sniffer_frame (received : list byte + error) (st : @St T) :
  steady st (Exit_state (sniffer_frame X C received st)).
Proof.
  unfold sniffer_frame. destruct received as [raw | e].
  - destruct (len raw <=? 0); [apply HandlerFacts.steady_refl |].
    destruct (isPingBody raw) as [[|] [e |]]; simpl Exit_state;
      try apply HandlerFacts.steady_set_stopped.
    + apply steady_afterHandler, steady_dispatch.
    + destruct (json_Unmarshal_Header C raw) as [header | | off |];
        simpl Exit_state; try apply HandlerFacts.steady_set_stopped.
      * apply steady_afterHandler, steady_dispatch.
      * apply steady_failWith.
  - apply HandlerFacts.steady_set_stopped.
Qed.

(** Whatever arrives on the socket, the receive loop never clears the
    stopped flag, never replaces a device id once bound, and never
    changes the worker's configuration; this holds at a panic too. *)
Theorem sniffer_steady (input : list (list byte + error)) :
  forall st : @St T, steady st (Exit_state (snd (sniffer X C input st))).
Proof.
  induction input as [| received rest IH]; intros st; simpl.
  - destruct (stopped (self st)); apply HandlerFacts.steady_refl.
  - destruct (stopped (self st)); [apply HandlerFacts.steady_refl |].
    pose proof (steady_sniffer_frame received st) as S.
    destruct (sniffer_frame X C received st) as [st1 | st1]; simpl in S.
    + eapply HandlerFacts.steady_trans; [exact S | apply IH].
    + exact S.
Qed.

(** The loop reads the frames in order and leaves unread exactly a tail
    of them.  It only ends with frames unread when the stopped flag is
    set or a panic has left it; a loop found stopped reads nothing. *)
Theorem sniffer_reads_until_stopped (input : list (list byte + error)) :
  forall st : @St T,
    (exists consumed, input = consumed ++ fst (sniffer X C input st))
    /\ (stopped (self st) = true -> sniffer X C input st = (input, Running st))
    /\ match snd (sniffer X C input st) with
       | Running st' => fst (sniffer X C input st) = [] \/ stopped (self st') = true
       | Panicked _ => True
       end.
Proof.
  induction input as [| received rest IH]; intros st; simpl.
  - destruct (stopped (self st)) eqn:S; simpl.
    + split; [exists []; reflexivity |]. split; [reflexivity | right; exact S].
    + split; [exists []; reflexivity |]. split; [discriminate | left; reflexivity].
  - destruct (stopped (self st)) eqn:S; simpl.
    + split; [exists []; reflexivity |]. split; [reflexivity | right; exact S].
    + destruct (sniffer_frame X C received st) as [st1 | st1].
      * destruct (IH st1) as ((consumed & E) & _ & R).
        split; [exists (received :: consumed); simpl; rewrite <- E; reflexivity |].
        split; [discriminate | exact R].
      * simpl. split; [exists [received]; reflexivity |].
        split; [discriminate | exact I].
Qed.

(** *** Single frames *)

Lemma isPingBody_nonempty (raw : list byte) (answer : bool * option error) :
  isPingBody raw = answer -> answer <> (true, None) -> raw <> [].
Proof. intros E N R. subst raw. apply N. rewrite <- E. reflexivity. Qed.

(** A frame the classifier takes for a ping goes to [Ping] with the type
    [ping], and the JSON decoder is not asked about it; this holds for
    every frame of a single byte, whatever the byte.  If [Ping] lets it
    through the loop goes on; if not, the error envelope is attempted and
    the loop stops. *)
Theorem sniffer_ping_frame (raw : list byte) (st : @St T) :
  strings_ToLower C "ping" = "ping"%string ->
  raw <> [] ->
  isPingBody raw = (true, None) ->
  sniffer_frame X C (inl raw) st
  = afterHandler C raw (Ping (mkRequestHeader "ping") raw st)
  /\ (fst (Ping (mkRequestHeader "ping") raw st) = None ->
      sniffer_frame X C (inl raw) st
      = Running (snd (Ping (mkRequestHeader "ping") raw st)))
  /\ forall b : byte, isPingBody [b] = (true, None).
Proof.
  intros Hl Hn Hp.
  assert (E : sniffer_frame X C (inl raw) st
              = afterHandler C raw (Ping (mkRequestHeader "ping") raw st)).
  { unfold sniffer_frame. rewrite len_nonpos_test.
    destruct raw as [| b rest]; [contradiction |].
    rewrite Hp. unfold dispatch. cbv zeta.
    change (Type_ (mkRequestHeader "ping")) with "ping"%string.
    rewrite Hl. reflexivity. }
  split; [exact E |]. split.
  - intros Ok. rewrite E.
    destruct (Ping (mkRequestHeader "ping") raw st) as [e st1]. simpl in Ok.
    subst e. reflexivity.
  - intros b. reflexivity.
Qed.

(** What the loop makes of a command that a handler refuses without
    touching the state. *)
Lemma sniffer_refusal (raw : list byte) (rest : list (list byte + error))
    (st : @St T) (header : RequestHeader) (err : error) :
  stopped (self st) = false ->
  isPingBody raw = (false, None) ->
  json_Unmarshal_Header C raw = HeaderOk header ->
  dispatch X C header raw st = (Some err, st) ->
  sniffer X C (inl raw :: rest) st
  = match failWith C raw err st with
    | Running st1 => (rest, Running st1)
    | Panicked st1 => (rest, Panicked st1)
    end
  /\ (forall st1, failWith C raw err st = Running st1 -> stopped (self st1) = true).
Proof.
  intros Hs Hp Hh Hd. split.
  - simpl. rewrite Hs. rewrite len_nonpos_test.
    assert (Hn : raw <> []) by (eapply isPingBody_nonempty; [exact Hp | discriminate]).
    destruct raw as [| b raw']; [contradiction |].
    rewrite Hp, Hh, Hd. simpl afterHandler.
    destruct (failWith C (b :: raw') err st) as [st1 | st1] eqn:F; [| reflexivity].
    assert (S1 : stopped (self st1) = true).
    { revert F. unfold failWith.
      destruct (handleError C (b :: raw') err st) as [[e st2] |]; [| discriminate].
      intros F. inversion F. reflexivity. }
    destruct rest; simpl; rewrite S1; reflexivity.
  - intros st1. unfold failWith.
    destruct (handleError C raw err st) as [[e st2] |]; [| discriminate].
    intros F. inversion F. reflexivity.
Qed.

(** A command before the handshake.  On a connection without a device
    id, a frame whose type reads, in lower case, [register], [unregister]
    or [ack] is answered with the envelope of [ErrInvalidCommand] (its own
    object with status and error set); the loop then stops, with the
    frames behind it unread, the connection still without an id and the
    store untouched. *)
Theorem sniffer_command_before_hello
    (raw : list byte) (rest : list (list byte + error)) (st : @St T)
    (header : RequestHeader) (reply : JsMap) :
  stopped (self st) = false ->
  Uaid (sock st) = EmptyString ->
  isPingBody raw = (false, None) ->
  json_Unmarshal_Header C raw = HeaderOk header ->
  strings_ToLower C (Type_ header) = "register"%string
  \/ strings_ToLower C (Type_ header) = "unregister"%string
  \/ strings_ToLower C (Type_ header) = "ack"%string ->
  json_Unmarshal_Map C raw = inl (Some reply) ->
  exists st1,
    sniffer X C (inl raw :: rest) st = (rest, Running st1)
    /\ stopped (self st1) = true
    /\ outbox (Socket (sock st1))
       = outbox (Socket (sock st))
         ++ [Bytes (json_Marshal_Map C (envelope C reply ErrInvalidCommand))]
    /\ Uaid (sock st1) = EmptyString
    /\ Store (sock st1) = Store (sock st)
    /\ commands st1 = commands st.
Proof.
  intros Hs Hu Hp Hh Hc Hm.
  assert (D : dispatch X C header raw st = (Some ErrInvalidCommand, st)).
  { unfold dispatch. cbv zeta.
    destruct Hc as [Hc | [Hc | Hc]]; rewrite Hc; simpl String.eqb; cbv iota.
    - apply WorkerFacts.Register_unbound, Hu.
    - apply WorkerFacts.Unregister_unbound, Hu.
    - apply WorkerFacts.Ack_unbound, Hu. }
  destruct (sniffer_refusal raw rest st header ErrInvalidCommand Hs Hp Hh D) as (E & _).
  revert E. unfold failWith, handleError. rewrite Hm. simpl. intros E.
  eexists. split; [exact E |]. simpl. rewrite Hu. repeat split.
Qed.

(** An unknown command.  A frame whose type, in lower case, is none of
    the six commands reaches no handler: it is answered with the envelope
    of [ErrUnknownCommand] and the loop stops, whether or not the
    connection has a device id. *)
Theorem sniffer_unknown_command
    (raw : list byte) (rest : list (list byte + error)) (st : @St T)
    (header : RequestHeader) (reply : JsMap) :
  stopped (self st) = false ->
  isPingBody raw = (false, None) ->
  json_Unmarshal_Header C raw = HeaderOk header ->
  ~ In (strings_ToLower C (Type_ header))
      ["ping"; "hello"; "ack"; "register"; "unregister"; "purge"]%string ->
  json_Unmarshal_Map C raw = inl (Some reply) ->
  sniffer X C (inl raw :: rest) st
  = (rest,
     Running
       (set_stopped true
          (set_Socket
             (mkWebSocket
                (outbox (Socket (sock st))
                 ++ [Bytes (json_Marshal_Map C (envelope C reply ErrUnknownCommand))])
                (transport (Socket (sock st)))) st))).
Proof.
  intros Hs Hp Hh Hc Hm.
  assert (D : dispatch X C header raw st = (Some ErrUnknownCommand, st)).
  { unfold dispatch. cbv zeta.
    repeat match goal with
      | |- context [String.eqb ?a ?b] =>
          destruct (String.eqb_spec a b) as [E | _];
          [exfalso; apply Hc; rewrite E; simpl; tauto |]
      end.
    reflexivity. }
  destruct (sniffer_refusal raw rest st header ErrUnknownCommand Hs Hp Hh D) as (E & _).
  revert E. unfold failWith, handleError. rewrite Hm. simpl. intros E. exact E.
Qed.

(** A frame that decodes to the nil map.  When such a frame is refused
    (here: its type is no command, or its header has a field of the wrong
    type), building the envelope panics: the loop is left with the stopped
    flag still clear, nothing sent, and the frames behind it unread. *)
Theorem sniffer_nil_map_panics
    (raw : list byte) (rest : list (list byte + error)) (st : @St T) :
  stopped (self st) = false ->
  isPingBody raw = (false, None) ->
  json_Unmarshal_Map C raw = inl None ->
  (json_Unmarshal_Header C raw = HeaderTypeError
   \/ exists header,
        json_Unmarshal_Header C raw = HeaderOk header
        /\ ~ In (strings_ToLower C (Type_ header))
             ["ping"; "hello"; "ack"; "register"; "unregister"; "purge"]%string) ->
  sniffer X C (inl raw :: rest) st = (rest, Panicked st).
Proof.
  intros Hs Hp Hm Hh.
  assert (Hn : raw <> []) by (eapply isPingBody_nonempty; [exact Hp | discriminate]).
  assert (F : forall err, failWith C raw err st = Panicked st).
  { intros err. unfold failWith, handleError. rewrite Hm. reflexivity. }
  destruct Hh as [Ht | (header & Hh & Hc)].
  - simpl. rewrite Hs, len_nonpos_test.
    destruct raw as [| b raw']; [contradiction |].
    rewrite Hp, Ht, F. reflexivity.
  - assert (D : dispatch X C header raw st = (Some ErrUnknownCommand, st)).
    { unfold dispatch. cbv zeta.
      repeat match goal with
        | |- context [String.eqb ?a ?b] =>
            destruct (String.eqb_spec a b) as [E | _];
            [exfalso; apply Hc; rewrite E; simpl; tauto |]
        end.
      reflexivity. }
    destruct (sniffer_refusal raw rest st header ErrUnknownCommand Hs Hp Hh D) as (E & _).
    rewrite F in E. exact E.
Qed.

(** Frames that end the loop without a word.  A read error, a frame the
    classifier rejects as a bad payload, and a frame whose header is not
    valid JSON (or fails to decode for any reason but a field type) set
    the stopped flag and send nothing; the frames behind are not read.
    An empty frame is skipped. *)
Theorem sniffer_silent_stop
    (received : list byte + error) (rest : list (list byte + error)) (st : @St T) :
  stopped (self st) = false ->
  ((exists e, received = inr e)
   \/ (exists raw, received = inl raw /\ snd (isPingBody raw) <> None)
   \/ (exists raw, received = inl raw /\ isPingBody raw = (false, None)
       /\ json_Unmarshal_Header C raw <> HeaderTypeError
       /\ forall header, json_Unmarshal_Header C raw <> HeaderOk header) ->
   sniffer X C (received :: rest) st = (rest, Running (set_stopped true st)))
  /\ sniffer X C (inl [] :: rest) st = sniffer X C rest st.
Proof.
  intros Hs. split.
  - assert (Stop : sniffer_frame X C received st = Running (set_stopped true st) ->
                   sniffer X C (received :: rest) st
                   = (rest, Running (set_stopped true st))).
    { intros F. simpl. rewrite Hs, F. destruct rest; reflexivity. }
    intros [(e & E) | [(raw & E & Hp) | (raw & E & Hp & Ht & Hh)]];
      subst received; apply Stop; unfold sniffer_frame.
    + reflexivity.
    + rewrite len_nonpos_test. destruct raw as [| b raw'].
      * exfalso. apply Hp. reflexivity.
      * destruct (isPingBody (b :: raw')) as [[|] [e |]]; simpl in Hp;
          try reflexivity; contradiction.
    + rewrite len_nonpos_test.
      assert (Hn : raw <> []) by (eapply isPingBody_nonempty; [exact Hp | discriminate]).
      destruct raw as [| b raw']; [contradiction |].
      rewrite Hp.
      destruct (json_Unmarshal_Header C (b :: raw')) as [header | | off |];
        try reflexivity.
      * exfalso. apply (Hh header). reflexivity.
      * contradiction.
  - simpl. rewrite Hs. reflexivity.
Qed.

End WithStore.

End SniffingFacts.

(** ** The added properties on concrete inputs *)

Module MoreScenarios.

Import Net Worker Sniffing Serving NetUtil HandlerSpec Examples MoreExamples.

(** *** Listener *)

Lemma Server_count_is_live_witness :
  ConnCount (listener (run busyDay (mkServer idleListener [])))
  = Z.of_nat (live (handed (run busyDay (mkServer idleListener [])))).
Proof.
  assert (HL : Listen (inl (mkListener (fun _ => inl tcpConn) 0 true)) 2 30000000000
               = inl idleListener) by reflexivity.
  assert (HM : 2 <= GoInt.MaxInt32) by (vm_compute; discriminate).
  exact (proj1 (ServingFacts.Server_count_is_live _ 2 30000000000 idleListener
                  busyDay HL HM)).
Defined.

Lemma Accept_underlying_error_witness :
  fst (fst (Accept failingListener)) = inr (NetErr "accept: too many open files")
  /\ conns (snd (fst (Accept failingListener))) = conns failingListener.
Proof.
  assert (Hd : Once_IsDone (closeOnce failingListener) = false) by reflexivity.
  assert (Hc : ConnCount failingListener < MaxConns failingListener) by reflexivity.
  destruct (ServingFacts.Accept_underlying_error failingListener
              (NetErr "accept: too many open files") Hd Hc eq_refl) as (A & B & _).
  split; [exact A | exact B].
Defined.

Lemma Accept_keepAlive_witness :
  exists socket,
    incoming (Listener_ idleListener) (served (Listener_ idleListener)) = inl socket
    /\ fd (Conn_ acceptedConn) = fd socket.
Proof.
  assert (E : Accept idleListener = (inl acceptedConn, oneOpenListener, acceptCalls))
    by reflexivity.
  destruct (ServingFacts.Accept_keepAlive _ _ _ _ E) as (socket & A & B & _).
  exists socket. split; [exact A | exact B].
Defined.

(** *** URLs and Retry-After *)



Lemma HostPort_default_host_witness :
  fst (HostPort (fun _ => Some ("0.0.0.0"%string, "8080"%string))
         (Some (Some "0.0.0.0:8080"%string)) (Some "push.example.com"%string))
  = "push.example.com"%string.
Proof.
  destruct (NetUtilFacts.HostPort_default_host
              (fun _ => Some ("0.0.0.0"%string, "8080"%string))
              (Some (Some "0.0.0.0:8080"%string)) (Some "push.example.com"%string))
    as (A & _).
  apply (A "push.example.com"%string eq_refl). discriminate.
Defined.

Lemma ParseRetryAfter_sound_witness :
  0 < fst (ParseRetryAfter (fun _ => Some 120) (fun _ => None) 0 "120").
Proof.
  destruct (NetUtilFacts.ParseRetryAfter_sound (fun _ => Some 120) (fun _ => None) 0 "120")
    as (A & _).
  apply A. reflexivity.
Defined.

(** *** Handlers *)

(** A [register] before the handshake is refused, and nothing is sent. *)
Lemma failed_command_sends_nothing_witness :
  Socket (sock (snd (Register X1 (mkRequestHeader "register") [] unboundSt)))
  = Socket (sock unboundSt).
Proof.
  destruct (HandlerFacts.failed_command_sends_nothing X1 (mkRequestHeader "register") []
              unboundSt ErrInvalidCommand) as (A & _).
  apply A. reflexivity.
Defined.

Lemma Hello_again_witness :
  Uaid (sock (snd (Hello X1 hello [] boundSt))) = deviceA
  /\ Hello XB hello [] boundSt = (Some ErrExistingID, boundSt).
Proof.
  assert (Hb : Uaid (sock boundSt) <> EmptyString) by discriminate.
  split.
  - destruct (HandlerFacts.Hello_again X1 hello [] boundSt helloA deviceA
                [JString "c1"] Hb eq_refl eq_refl eq_refl) as (A & _).
    destruct (A (or_intror eq_refl)) as (U & _). exact U.
  - destruct (HandlerFacts.Hello_again XB hello [] boundSt helloB deviceB
                [] Hb eq_refl eq_refl eq_refl) as (_ & B).
    apply B; discriminate.
Defined.

Lemma Hello_forced_reset_witness :
  Uaid (sock (snd (Hello XAnonymous hello [] unboundSt))) = deviceB.
Proof.
  destruct (HandlerFacts.Hello_forced_reset XAnonymous hello [] unboundSt
              helloAnonymous EmptyString [] eq_refl eq_refl eq_refl eq_refl)
    as (A & _).
  destruct (A eq_refl) as (U & _). exact U.
Defined.

Lemma Hello_accepts_witness :
  Uaid (sock (snd (Hello XBare hello [] unboundSt))) = deviceA.
Proof.
  assert (Hn : deviceA <> EmptyString) by discriminate.
  assert (Hm : len (@nil JSON) <= maxChannels (self unboundSt))
    by (vm_compute; discriminate).
  destruct (HandlerFacts.Hello_accepts XBare hello [] unboundSt helloBare deviceA []
              eq_refl eq_refl eq_refl eq_refl Hn eq_refl eq_refl Hm
              (or_introl eq_refl)) as (U & _).
  exact U.
Defined.


Lemma Flush_targeted_witness :
  outbox (Socket (sock (snd (Flush 0 "c1" (-1) boundSt))))
  = outbox (Socket (sock boundSt))
    ++ [FlushReply "notification" [mkUpdate "c1" (-1 mod 2 ^ 64)] []].
Proof.
  assert (Hb : Uaid (sock boundSt) <> EmptyString) by discriminate.
  assert (Hc : "c1"%string <> EmptyString) by discriminate.
  destruct (HandlerFacts.Flush_targeted 0 (-1) "c1" boundSt Hb Hc) as (_ & O & _).
  exact O.
Defined.


Lemma Register_outcomes_witness :
  fst (Register X1 (mkRequestHeader "register") [] boundSt) = None
  /\ commands (snd (Register X1 (mkRequestHeader "register") [] boundSt))
     = commands boundSt ++ [REGIS "c1"].
Proof.
  assert (Hb : Uaid (sock boundSt) <> EmptyString) by discriminate.
  destruct (HandlerFacts.Register_outcomes X1 (mkRequestHeader "register") [] boundSt
              (mkRegisterRequest "c1") Hb eq_refl) as (_ & A).
  destruct (A eq_refl None ((deviceA, "c1"%string, 0) :: storeA) eq_refl)
    as (_ & F & Cm & _).
  split; [exact F | exact Cm].
Defined.


(** At the zero time the first ping leaves no trace: the second one is
    let through. *)
Example Ping_at_zero_time :
  fst (Ping (mkRequestHeader "ping") []
         (at_clock 100 (snd (Ping (mkRequestHeader "ping") []
                               (demoSt true storeA deviceA 0)))))
  = None.
Proof. reflexivity. Qed.

(** *** Receive loop *)

Lemma handleError_envelope_witness :
  JsMap_get (envelope registerCodec earlyRegister ErrInvalidCommand) "channelID"
  = JsMap_get earlyRegister "channelID".
Proof.
  destruct (SniffingFacts.handleError_envelope registerCodec commandFrame
              ErrInvalidCommand unboundSt) as (A & _).
  destruct (A earlyRegister eq_refl) as (_ & _ & _ & K).
  apply K; discriminate.
Defined.

Lemma sniffer_reads_until_stopped_witness :
  sniffer X1 registerCodec [inl commandFrame] (set_stopped true unboundSt)
  = ([inl commandFrame], Running (set_stopped true unboundSt)).
Proof.
  destruct (SniffingFacts.sniffer_reads_until_stopped X1 registerCodec
              [inl commandFrame] (set_stopped true unboundSt)) as (_ & A & _).
  apply A. reflexivity.
Defined.

Lemma sniffer_ping_frame_witness :
  sniffer_frame X1 registerCodec (inl ["a"%byte]) longPongSt
  = afterHandler registerCodec ["a"%byte]
      (Ping (mkRequestHeader "ping") ["a"%byte] longPongSt).
Proof.
  assert (Hn : ["a"%byte] <> []) by discriminate.
  exact (proj1 (SniffingFacts.sniffer_ping_frame X1 registerCodec ["a"%byte]
                  longPongSt eq_refl Hn eq_refl)).
Defined.

Lemma sniffer_command_before_hello_witness :
  exists st1,
    sniffer X1 registerCodec [inl commandFrame; inl commandFrame] unboundSt
    = ([inl commandFrame], Running st1)
    /\ stopped (self st1) = true.
Proof.
  destruct (SniffingFacts.sniffer_command_before_hello X1 registerCodec commandFrame
              [inl commandFrame] unboundSt (mkRequestHeader "Register") earlyRegister
              eq_refl eq_refl eq_refl eq_refl (or_introl eq_refl) eq_refl)
    as (st1 & E & S & _).
  exists st1. split; [exact E | exact S].
Defined.

Lemma sniffer_unknown_command_witness :
  fst (sniffer X1 unknownCodec [inl commandFrame; inl commandFrame] boundSt)
  = [inl commandFrame].
Proof.
  assert (Hc : ~ In (strings_ToLower unknownCodec (Type_ (mkRequestHeader "subscribe")))
                 ["ping"; "hello"; "ack"; "register"; "unregister"; "purge"]%string).
  { simpl. intros [E | [E | [E | [E | [E | [E | []]]]]]]; discriminate. }
  rewrite (SniffingFacts.sniffer_unknown_command X1 unknownCodec commandFrame
             [inl commandFrame] boundSt (mkRequestHeader "subscribe") earlyRegister
             eq_refl eq_refl eq_refl Hc eq_refl).
  reflexivity.
Defined.

Lemma sniffer_nil_map_panics_witness :
  sniffer X1 nullCodec [inl commandFrame; inl commandFrame] boundSt
  = ([inl commandFrame], Panicked boundSt).
Proof.
  apply (SniffingFacts.sniffer_nil_map_panics X1 nullCodec commandFrame
           [inl commandFrame] boundSt eq_refl eq_refl eq_refl).
  right. exists (mkRequestHeader EmptyString). split; [reflexivity |].
  simpl. intros [E | [E | [E | [E | [E | [E | []]]]]]]; discriminate.
Defined.

Lemma sniffer_silent_stop_witness :
  sniffer X1 registerCodec
    [inl ["{"%byte; "{"%byte; "}"%byte; "}"%byte]; inl commandFrame] boundSt
  = ([inl commandFrame], Running (set_stopped true boundSt)).
Proof.
  destruct (SniffingFacts.sniffer_silent_stop X1 registerCodec
              (inl ["{"%byte; "{"%byte; "}"%byte; "}"%byte]) [inl commandFrame]
              boundSt eq_refl) as (A & _).
  apply A. right. left.
  exists ["{"%byte; "{"%byte; "}"%byte; "}"%byte]. split; [reflexivity | discriminate].
Defined.

End MoreScenarios.
